(** * reverse_geocode: a shallow embedding of [__init__.py]

    The module reads a gazetteer dump (or the compact CSV derived from it),
    builds a k-d tree over the coordinates and answers nearest-place queries.

    Modelling conventions.
    - Python exceptions are an explicit result type; a computation that
      touches the file system, the log or the singleton is a function from a
      [world] to a result and the world it leaves behind (an exception keeps
      the effects that happened before it).
    - A text file is the list of rows the [csv] reader yields for it, and
      [csv.writer.writerow] appends one row: the encoding of rows as text is
      the standard library's business, not this module's.  The module never
      flushes or closes its writer, so [fs] holds what the compact file holds
      once the handle is released, which a returning [__extract] does; right
      after a run that raised, what has reached the file depends on when the
      handle is released.
    - float64 numbers are rationals; what float64 arithmetic does to a
      distance (rounding, overflow) is inside the tree's search.
    - [scipy.spatial.cKDTree] is a collaborator: the tree is the array of
      points it was built from, its shape checks are written out, and the
      search itself is a parameter of the development ([kd_nearest]): it
      answers an index, which is the number of points when the tree finds no
      neighbour.
    - A location is a Python [dict]; [GeocodeData.query] hands out references
      to the stored dicts, so a result is the position of the dict in
      [__locations] and is read in the world the call leaves behind. *)

From Stdlib Require Import QArith Ascii String.

From stdpp Require Import base option list strings gmap.

Local Open Scope string_scope.

(** ** Exceptions and the world *)

Inductive exn :=
  | ValueError
  | IndexError
  | KeyError
  | UnboundLocalError
  | FileNotFoundError
  | URLError
  | BadZipFile
  | UnicodeDecodeError.

Inductive result (A : Type) :=
  | Ok (a : A)
  | Raise (e : exn).

Arguments Ok {A} a.

Arguments Raise {A} e.

(** A Python value a caller may put in a coordinate. *)
Inductive pyval :=
  | PyFloat (q : Q)
  | PyStr (s : string).

Abbreviation row := (list string).

(** The content of a file: a text file as its rows, or a zip archive as the
    text entries it holds. *)
Inductive file :=
  | Text (rows : list row)
  | Archive (entries : gmap string (list row)).

(** What [logging.info] was called with. *)
Inductive log_entry :=
  | UnableToParse (coordinates : list (list pyval))
  | Downloading (url : string)
  | Extracting (name : string).

(** [dict(country_code=..., city=...)], to which [query] adds [country]. *)
Record location := Location {
  country_code : string;
  city : string;
  country : option string
}.

(** The attributes of the [GeocodeData] instance; [tree] is the data array
    of the [cKDTree]. *)
Record GeocodeData := Build_GeocodeData {
  locations : list location;
  tree : list (Q * Q);
  countries : gmap string string
}.

Record world := World {
  fs : gmap string file;          (* the file system, by path *)
  net : gmap string file;         (* what a URL serves *)
  log : list log_entry;
  instances : option GeocodeData  (* the [instances] dict of [singleton] *)
}.

Definition M (A : Type) : Type := world → result A * world.

Definition ret {A} (a : A) : M A := λ w, (Ok a, w).

Definition raise {A} (e : exn) : M A := λ w, (Raise e, w).

Definition bind {A B} (m : M A) (k : A → M B) : M B :=
  λ w, match m w with
       | (Ok a, w') => k a w'
       | (Raise e, w') => (Raise e, w')
       end.

Definition lift {A} (r : result A) : M A := λ w, (r, w).

Declare Scope py_scope.

Delimit Scope py_scope with py.

Notation "x <- m ;; k" := (bind m (λ x, k))
  (at level 100, m at next level, right associativity) : py_scope.

Notation "m ;;; k" := (bind m (λ _, k))
  (at level 100, right associativity) : py_scope.

Local Open Scope py_scope.

(** Exceptions without a world: the pure part of a loop body. *)
Definition rbind {A B} (r : result A) (k : A → result B) : result B :=
  match r with Ok a => k a | Raise e => Raise e end.

Notation "x <~ r ;; k" := (rbind r (λ x, k))
  (at level 100, r at next level, right associativity) : py_scope.

(** ** The operating system *)

Definition set_fs (f : gmap string file → gmap string file) : M unit :=
  λ w, (Ok tt, World (f (fs w)) (net w) (log w) (instances w)).

Definition path_exists (p : string) : M bool :=
  λ w, (Ok (bool_decide (is_Some (fs w !! p))), w).

(** [logging.info(...)] *)
Definition logging_info (e : log_entry) : M unit :=
  λ w, (Ok tt, World (fs w) (net w) (log w ++ [e]) (instances w)).

(** [csv.reader(open(p, 'r'), ...)], read to the end. *)
Definition csv_reader (p : string) : M (list row) :=
  λ w, match fs w !! p with
       | Some (Text rows) => (Ok rows, w)
       | Some (Archive _) => (Raise UnicodeDecodeError, w)
       | None => (Raise FileNotFoundError, w)
       end.

(** [open(p, 'w')]: the file is created or truncated. *)
Definition open_w (p : string) : M unit := set_fs <[p := Text []]>.

(** [writer.writerow(r)] on the file opened at [p]. *)
Definition writerow (p : string) (r : row) : M unit :=
  set_fs (alter (λ f, match f with
                      | Text rows => Text (rows ++ [r])
                      | Archive _ => Text [r]
                      end) p).

(** [os.remove(p)] *)
Definition os_remove (p : string) : M unit :=
  λ w, match fs w !! p with
       | Some _ => set_fs (delete p) w
       | None => (Raise FileNotFoundError, w)
       end.

(** [urlretrieve(url, p)] *)
Definition urlretrieve (url p : string) : M unit :=
  λ w, match net w !! url with
       | Some f => set_fs <[p := f]> w
       | None => (Raise URLError, w)
       end.

(** [os.path.basename]: what follows the last slash. *)
Fixpoint has_slash (s : string) : bool :=
  match s with
  | EmptyString => false
  | String c s' => Ascii.eqb c "/"%char || has_slash s'
  end.

Fixpoint basename (s : string) : string :=
  match s with
  | EmptyString => EmptyString
  | String c s' =>
      if has_slash s' then basename s'
      else if Ascii.eqb c "/"%char then s' else s
  end.

(** ** The environment of the module

    Path resolution, numpy's conversion of a string to a float64 and the
    nearest-neighbour search of the k-d tree are not this module's code. *)

Class Env := {
  rel_path : string → string;
  abspath : string → string;
  float_of_str : string → option Q;
  kd_nearest : list (Q * Q) → Q * Q → nat
}.

(** ** The module *)

Definition GEOCODE_URL : string :=
  "http://download.geonames.org/export/dump/cities1000.zip".

Definition GEOCODE_FILENAME : string := "cities1000.txt".

Definition is_moscow_part (admin1 country_code city_type : string) : bool :=
  String.eqb admin1 "48" && String.eqb country_code "RU"
  && negb (String.eqb city_type "PPLC").

(** The truth value of a [str]. *)
Definition truthy (s : string) : bool := negb (String.eqb s "").

(** [r[i]] and [r[i:j]] on a list. *)
Definition index {A} (r : list A) (i : nat) : result A :=
  match r !! i with
  | Some x => Ok x
  | None => Raise IndexError
  end.

Definition slice {A} (r : list A) (i j : nat) : list A := take (j - i) (drop i r).

(** The body of the loop over the dump (lines 93-103): the compact row to
    write and keep, if any. *)
Definition extract_row (r : row) : result (option row) :=
  match slice r 4 6 with
  | [latitude; longitude] =>
      cc <~ index r 8 ;;
      if truthy latitude && truthy longitude && truthy cc then
        name <~ index r 1 ;;
        city_type <~ index r 7 ;;
        admin1 <~ index r 10 ;;
        if negb (bool_decide (city_type ∈ ["PPLX"; "PPLA3"; "PPLH"])) then
          if negb (is_moscow_part admin1 cc city_type)
          then Ok (Some [latitude; longitude; cc; name])
          else Ok None
        else Ok None
      else Ok None
  | _ => Raise ValueError
  end.

(** The loop over the dump: [rows] is the list being appended to. *)
Fixpoint extract_rows (local_filename : string) (dump rows : list row)
    : M (list row) :=
  match dump with
  | [] => ret rows
  | r :: dump' =>
      kept <- lift (extract_row r) ;;
      match kept with
      | Some compact =>
          writerow local_filename compact ;;;
          extract_rows local_filename dump' (rows ++ [compact])
      | None => extract_rows local_filename dump' rows
      end
  end.

(** The last loop of [__extract] (lines 109-113). *)
Fixpoint load_rows (rows : list row)
    : result (list (string * string) * list location) :=
  match rows with
  | [] => Ok ([], [])
  | [latitude; longitude; cc; name] :: rows' =>
      out <~ load_rows rows' ;;
      Ok ((latitude, longitude) :: out.1, Location cc name None :: out.2)
  | _ :: _ => Raise ValueError
  end.

(** [zipfile.ZipFile(p)] *)
Definition ZipFile (p : string) : M (gmap string (list row)) :=
  λ w, match fs w !! p with
       | Some (Archive z) => (Ok z, w)
       | Some (Text _) => (Raise BadZipFile, w)
       | None => (Raise FileNotFoundError, w)
       end.

Section Program.

Context `{Env}.

Definition __download : M string :=
  let local_filename := abspath (basename GEOCODE_URL) in
  present <- path_exists local_filename ;;
  (if negb present
   then logging_info (Downloading GEOCODE_URL) ;;;
        urlretrieve GEOCODE_URL local_filename
   else ret tt) ;;;
  ret local_filename.

Definition __extract (local_filename : string)
    : M (list (string * string) * list location) :=
  cached <- path_exists local_filename ;;
  rows <- (if cached then csv_reader local_filename
           else
             dumped <- path_exists GEOCODE_FILENAME ;;
             downloadedFile <-
               (if negb dumped
                then d <- __download ;;
                     logging_info (Extracting GEOCODE_FILENAME) ;;;
                     z <- ZipFile d ;;
                     open_w GEOCODE_FILENAME ;;;
                     match z !! GEOCODE_FILENAME with
                     | Some content =>
                         set_fs <[GEOCODE_FILENAME := Text content]>
                     | None => raise KeyError
                     end ;;;
                     ret (Some d)
                else ret None) ;;
             open_w local_filename ;;;
             dump <- csv_reader GEOCODE_FILENAME ;;
             rows <- extract_rows local_filename dump [] ;;
             match downloadedFile with
             | Some d => os_remove d
             | None => raise UnboundLocalError
             end ;;;
             os_remove GEOCODE_FILENAME ;;;
             ret rows) ;;
  lift (load_rows rows).

(** numpy's conversion of one value, and of a coordinate, to float64. *)
Definition to_float (v : pyval) : option Q :=
  match v with
  | PyFloat q => Some q
  | PyStr s => float_of_str s
  end.

Definition as_point (c : list pyval) : option (Q * Q) :=
  match c with
  | [a; b] => x ← to_float a; y ← to_float b; Some (x, y)
  | _ => None
  end.

(** [KDTree(coordinates)]: the data must convert to a two-dimensional
    float64 array, which an empty list does not. *)
Definition KDTree (coordinates : list (string * string))
    : result (list (Q * Q)) :=
  match coordinates with
  | [] => Raise ValueError
  | _ :: _ =>
      match mapM (λ c, as_point [PyStr c.1; PyStr c.2]) coordinates with
      | Some data => Ok data
      | None => Raise ValueError
      end
  end.

(** [tree.query(x, k=1)], the indices only: [x] must convert to an array
    whose last dimension is 2, which an empty list (shape [(0,)]) does
    not. *)
Definition tree_query (data : list (Q * Q)) (x : list (list pyval))
    : result (list nat) :=
  match x with
  | [] => Raise ValueError
  | _ :: _ =>
      match mapM as_point x with
      | Some points => Ok (kd_nearest data <$> points)
      | None => Raise ValueError
      end
  end.

Fixpoint load_countries (rows : list row) (acc : gmap string string)
    : result (gmap string string) :=
  match rows with
  | [] => Ok acc
  | [code; name] :: rows' => load_countries rows' (<[code := name]> acc)
  | _ :: _ => Raise ValueError
  end.

Definition __load_countries (country_filename : string)
    : M (gmap string string) :=
  rows <- csv_reader country_filename ;;
  lift (load_countries rows ∅).

Definition __init__ : M GeocodeData :=
  out <- __extract (rel_path "geocode.csv") ;;
  t <- lift (KDTree out.1) ;;
  c <- __load_countries (rel_path "countries.csv") ;;
  ret (Build_GeocodeData out.2 t c).

(** The function [singleton] puts in place of the class. *)
Definition getinstance : M GeocodeData :=
  λ w, match instances w with
       | Some gd => (Ok gd, w)
       | None =>
           (gd <- __init__ ;;
            (λ w', (Ok gd, World (fs w') (net w') (log w') (Some gd)))) w
       end.

(** [result['country'] = countries.get(result['country_code'], '')] *)
Definition set_country (c : gmap string string) (l : location) : location :=
  Location (country_code l) (city l) (Some (default "" (c !! country_code l))).

(** The references [self.__locations[index] for index in indices]. *)
Fixpoint lookup_all (locs : list location) (indices : list nat)
    : result (list nat) :=
  match indices with
  | [] => Ok []
  | i :: indices' =>
      _ <~ index locs i ;;
      rs <~ lookup_all locs indices' ;;
      Ok (i :: rs)
  end.

(** [self] is the singleton: its mutated state goes back into the world. *)
Definition query (self : GeocodeData) (coordinates : list (list pyval))
    : M (list nat) :=
  match tree_query (tree self) coordinates with
  | Raise ValueError =>
      logging_info (UnableToParse coordinates) ;;; raise ValueError
  | Raise e => raise e
  | Ok indices =>
      results <- lift (lookup_all (locations self) indices) ;;
      let locs :=
        foldl (λ ls r, alter (set_country (countries self)) r ls)
              (locations self) results in
      (λ w, (Ok results,
             World (fs w) (net w) (log w)
                   (Some (Build_GeocodeData locs (tree self) (countries self)))))
  end.

Definition get (coordinate : list pyval) : M nat :=
  gd <- getinstance ;;
  results <- query gd [coordinate] ;;
  lift (index results 0).

Definition search (coordinates : list (list pyval)) : M (list nat) :=
  gd <- getinstance ;;
  query gd coordinates.

(** What the caller reads through a reference it was handed. *)
Definition deref (w : world) (r : nat) : option location :=
  gd ← instances w; locations gd !! r.

End Program.

(** * The vocabulary of the properties *)

(** ** Distances

    Planar Euclidean distance on the raw (latitude, longitude) pairs; the
    square is compared, which orders points as the distance does. *)

Definition dist2 (x p : Q * Q) : Q :=
  ((x.1 - p.1) * (x.1 - p.1) + (x.2 - p.2) * (x.2 - p.2))%Q.

Definition nearest_in (data : list (Q * Q)) (x : Q * Q) (j : nat) : Prop :=
  ∃ p, data !! j = Some p ∧ ∀ p', p' ∈ data → (dist2 x p <= dist2 x p')%Q.

Definition with_log (w : world) (e : log_entry) : world :=
  World (fs w) (net w) (log w ++ [e]) (instances w).

Definition with_instance (w : world) (gd : GeocodeData) : world :=
  World (fs w) (net w) (log w) (Some gd).

(** The stored records after the references [rs] were handed out. *)
Definition resolved (gd : GeocodeData) (rs : list nat) : GeocodeData :=
  Build_GeocodeData
    (foldl (λ ls r, alter (set_country (countries gd)) r ls) (locations gd) rs)
    (tree gd) (countries gd).

(** A constructed service: one record per point of the tree, and at least
    one ([KDTree] refuses an empty array). *)
Definition service_ok (gd : GeocodeData) : Prop :=
  length (tree gd) = length (locations gd) ∧ tree gd ≠ [].

(** Every service the singleton holds is a constructed one. *)
Definition world_ok (w : world) : Prop :=
  ∀ gd, instances w = Some gd → service_ok gd.

(** Well-formed numeric coordinates and the points they denote. *)
Definition numeric `{Env} (coordinates : list (list pyval))
    (points : list (Q * Q)) : Prop :=
  Forall2 (λ c p, ∃ a b x y,
             c = [a; b] ∧ to_float a = Some x ∧ to_float b = Some y ∧ p = (x, y))
          coordinates points.

(** The calls a client can make, and the world they leave. *)
Inductive call :=
  | CallGet (coordinate : list pyval)
  | CallSearch (coordinates : list (list pyval)).

Definition run_call `{Env} (w : world) (c : call) : world :=
  match c with
  | CallGet coordinate => (get coordinate w).2
  | CallSearch coordinates => (search coordinates w).2
  end.

(** The references a call, and a sequence of calls, hand out. *)
Definition refs_of_call `{Env} (w : world) (c : call) : list nat :=
  match c with
  | CallGet coordinate =>
      match (get coordinate w).1 with
      | Ok r => [r]
      | Raise _ => []
      end
  | CallSearch coordinates =>
      match (search coordinates w).1 with
      | Ok rs => rs
      | Raise _ => []
      end
  end.

Fixpoint refs_of_calls `{Env} (w : world) (calls : list call) : list nat :=
  match calls with
  | [] => []
  | c :: calls' => refs_of_call w c ++ refs_of_calls (run_call w c) calls'
  end.

(** The tree answered the index of a stored record for every point. *)
Definition matched `{Env} (gd : GeocodeData) (points : list (Q * Q)) : Prop :=
  Forall (λ x, kd_nearest (tree gd) x < length (locations gd)) points.

(** The compact row the loop body writes and keeps for a dump row, if any. *)
Definition retained (r : row) : option row :=
  match extract_row r with
  | Ok (Some c) => Some c
  | _ => None
  end.

(** A dump row with latitude, longitude and country code present and not
    empty, and a place type outside the excluded three. *)
Definition passes (r : row) : Prop :=
  ∃ lat lon cc ty,
    r !! 4 = Some lat ∧ r !! 5 = Some lon ∧ r !! 8 = Some cc ∧ r !! 7 = Some ty ∧
    lat ≠ "" ∧ lon ≠ "" ∧ cc ≠ "" ∧ ty ∉ ["PPLX"; "PPLA3"; "PPLH"].

(** The output pair for a compact row. *)
Definition coordinate_of (c : row) : string * string := (c !!! 0, c !!! 1).

Definition record_of (c : row) : location := Location (c !!! 2) (c !!! 3) None.

(** A computation that never touches the singleton. *)
Definition keeps_instances {A} (m : M A) : Prop :=
  ∀ w r w', m w = (r, w') → instances w' = instances w.

(** The loop body returns for a row (with or without a compact row). *)
Definition row_ok (r : row) : Prop := ∃ kept, extract_row r = Ok kept.

(** ** An environment to run the model in

    A linear scan for the search, plain decimals for the floats, and one
    directory for every path. *)

Fixpoint argmin (x : Q * Q) (data : list (Q * Q)) : nat :=
  match data with
  | [] => 0
  | p :: rest =>
      match rest !! argmin x rest with
      | Some q => if Qle_bool (dist2 x p) (dist2 x q) then 0 else S (argmin x rest)
      | None => 0
      end
  end.

Definition digit (c : ascii) : option Z :=
  let n := nat_of_ascii c in
  if (48 <=? n)%nat && (n <=? 57)%nat then Some (Z.of_nat (n - 48)) else None.

Fixpoint decimal_digits (s : string) (num : Z) (den : positive)
    (frac seen : bool) : option Q :=
  match s with
  | EmptyString => if seen then Some (num # den) else None
  | String c s' =>
      if Ascii.eqb c "."%char
      then if frac then None else decimal_digits s' num den true seen
      else d ← digit c;
           decimal_digits s' (10 * num + d)%Z
                          (if frac then (10 * den)%positive else den) frac true
  end.

Definition decimal (s : string) : option Q :=
  match s with
  | String "-"%char s' => Qopp <$> decimal_digits s' 0 1 false false
  | _ => decimal_digits s 0 1 false false
  end.

Definition posix : Env := {|
  rel_path := λ f, "/srv/geo/" ++ f;
  abspath := λ f, "/srv/geo/" ++ f;
  float_of_str := decimal;
  kd_nearest := λ data x, argmin x data
|}.




(** A dump of four places (one a secondary place, one a part of Moscow), a
    remote archive holding it, and a catalogue of two countries. *)
Definition dump_row (name lat lon ty cc admin1 : string) : row :=
  ["0"; name; name; ""; lat; lon; "P"; ty; cc; ""; admin1].

Definition sample_dump : list row :=
  [ dump_row "Moscow" "55.75" "37.61" "PPLC" "RU" "48";
    dump_row "Cheremushki" "55.66" "37.55" "PPL" "RU" "48";
    dump_row "Jerusalem" "31.76" "35.21" "PPLA" "IL" "06";
    dump_row "Old Town" "31.77" "35.23" "PPLX" "IL" "06";
    dump_row "Pristina" "42.67" "21.16" "PPLC" "XK" "00" ].

Definition sample_countries : list row :=
  [ ["RU"; "Russian Federation"]; ["IL"; "Israel"] ].

Definition fresh_world : world := {|
  fs := {[ "/srv/geo/countries.csv" := Text sample_countries ]};
  net := {[ GEOCODE_URL := Archive {[ GEOCODE_FILENAME := sample_dump ]} ]};
  log := [];
  instances := None
|}.

(** The same installation with the dump already on disk and nothing to
    fetch. *)
Definition dumped_world : world := {|
  fs := {[ "/srv/geo/countries.csv" := Text sample_countries;
           GEOCODE_FILENAME := Text sample_dump ]};
  net := ∅;
  log := [];
  instances := None
|}.

(** The world after a first call has built the singleton, the service it
    holds, and a batch of two coordinates to ask about. *)
Definition built_world : world := (@getinstance posix fresh_world).2.

Definition sample_service : GeocodeData := {|
  locations := [ Location "RU" "Moscow" None; Location "IL" "Jerusalem" None;
                 Location "XK" "Pristina" None ];
  tree := [ (55.75, 37.61); (31.76, 35.21); (42.67, 21.16) ]%Q;
  countries := {[ "RU" := "Russian Federation"; "IL" := "Israel" ]}
|}.

Definition sample_query : list (list pyval) :=
  [ [PyFloat 55.68; PyFloat 37.53]; [PyFloat 31.76; PyStr "35.21"] ].

Definition empty_cache_world : world := {|
  fs := {[ "/srv/geo/geocode.csv" := Text [] ]};
  net := ∅; log := []; instances := None
|}.

Definition sample_compact : list row :=
  [ ["55.75"; "37.61"; "RU"; "Moscow"]; ["31.76"; "35.21"; "IL"; "Jerusalem"];
    ["42.67"; "21.16"; "XK"; "Pristina"] ].

Definition sample_output : list (string * string) * list location :=
  ([ ("55.75", "37.61"); ("31.76", "35.21"); ("42.67", "21.16") ],
   [ Location "RU" "Moscow" None; Location "IL" "Jerusalem" None;
     Location "XK" "Pristina" None ]).

(** An installation with nothing to fetch from, and one whose compact file
    holds a part of Moscow that the dump filter would have dropped. *)
Definition offline_world : world := {|
  fs := {[ "/srv/geo/countries.csv" := Text sample_countries ]};
  net := ∅; log := []; instances := None
|}.

Definition moscow_cache : list row :=
  [ ["55.75"; "37.61"; "RU"; "Moscow"]; ["55.66"; "37.55"; "RU"; "Cheremushki"] ].

Definition cached_world : world := {|
  fs := {[ "/srv/geo/geocode.csv" := Text moscow_cache;
           "/srv/geo/countries.csv" := Text sample_countries ]};
  net := ∅; log := []; instances := None
|}.

(** An installation whose country file names a code twice. *)
Definition renamed_world : world := {|
  fs := {[ "/srv/geo/countries.csv"
           := Text [ ["RU"; "Russia"]; ["IL"; "Israel"];
                     ["RU"; "Russian Federation"] ] ]};
  net := ∅; log := []; instances := None
|}.

(** An installation whose archive, already on disk, holds a dump with a
    truncated fourth row. *)
Definition bad_archive_world : world := {|
  fs := {[ "/srv/geo/cities1000.zip"
           := Archive {[ GEOCODE_FILENAME
                         := (take 3 sample_dump ++ ["7"; "Nowhere"]
                             :: drop 3 sample_dump)%list ]} ]};
  net := ∅; log := []; instances := None
|}.

(** * Properties *)

(** ** Running a computation *)

Lemma bind_Ok_inv {A B} (m : M A) (k : A → M B) w b w2 :
  bind m k w = (Ok b, w2) → ∃ a w1, m w = (Ok a, w1) ∧ k a w1 = (Ok b, w2).
Proof.
  unfold bind. destruct (m w) as [[a|e] w1]; [|done]. intros Hk. by exists a, w1.
Qed.

Lemma os_remove_Ok_inv p w w' :
  os_remove p w = (Ok tt, w') →
  w' = World (delete p (fs w)) (net w) (log w) (instances w).
Proof.
  unfold os_remove. destruct (fs w !! p); [|done]. by intros [= <-].
Qed.

(** ** Queries *)

Section Queries.

Context `{Env}.

Lemma set_country_idemp c l : set_country c (set_country c l) = set_country c l.
Proof. reflexivity. Qed.

Lemma lookup_all_ok (locs : list location) (indices : list nat) :
  Forall (λ i, i < length locs) indices → lookup_all locs indices = Ok indices.
Proof.
  induction 1 as [|i indices Hi _ IH]; simpl; [done|].
  unfold index. destruct (lookup_lt_is_Some_2 locs i Hi) as [l ->]. simpl.
  by rewrite IH.
Qed.

Lemma lookup_all_inv (locs : list location) (indices rs : list nat) :
  lookup_all locs indices = Ok rs →
  rs = indices ∧ Forall (λ i, i < length locs) indices.
Proof.
  revert rs. induction indices as [|i indices IH]; simpl; intros rs Hrs.
  - by inversion Hrs.
  - unfold index in Hrs. destruct (locs !! i) as [l|] eqn:Hi; simpl in Hrs; [|done].
    destruct (lookup_all locs indices) as [rs'|] eqn:Hrec; simpl in Hrs; [|done].
    destruct (IH rs' eq_refl) as [-> Hall]. inversion Hrs. split; [done|].
    constructor; [by eapply lookup_lt_Some|done].
Qed.

Lemma lookup_all_raise (locs : list location) (indices : list nat) e :
  lookup_all locs indices = Raise e → e = IndexError.
Proof.
  induction indices as [|i indices IH]; simpl; [done|].
  unfold index. destruct (locs !! i); simpl; [|by inversion 1].
  destruct (lookup_all locs indices); simpl; [done|].
  intros [= <-]. by apply IH.
Qed.

Lemma resolved_length gd rs :
  length (locations (resolved gd rs)) = length (locations gd).
Proof.
  unfold resolved; simpl. generalize (locations gd).
  induction rs as [|r rs IH]; intros ls; simpl; [done|].
  by rewrite IH, length_alter.
Qed.

Lemma resolved_lookup gd rs j :
  locations (resolved gd rs) !! j
  = (if decide (j ∈ rs) then set_country (countries gd) else id)
      <$> locations gd !! j.
Proof.
  unfold resolved; simpl. generalize (locations gd).
  induction rs as [|r rs IH]; intros ls.
  - destruct (decide (j ∈ [])) as [Hin|_]; [by apply elem_of_nil in Hin|].
    simpl. by destruct (ls !! j).
  - change (foldl ?f ls (r :: rs)) with (foldl f (alter (set_country (countries gd)) r ls) rs).
    rewrite IH. destruct (decide (j = r)) as [->|Hne].
    + rewrite list_lookup_alter_eq.
      destruct (decide (r ∈ r :: rs)) as [_|Hnin]; [|by destruct Hnin; left].
      destruct (ls !! r); simpl; by destruct (decide (r ∈ rs)).
    + rewrite list_lookup_alter_ne by done.
      destruct (decide (j ∈ rs)) as [Hin|Hnin];
        destruct (decide (j ∈ r :: rs)) as [Hin'|Hnin']; try done.
      * destruct Hnin'. by right.
      * apply elem_of_cons in Hin'. tauto.
Qed.

Lemma numeric_as_points coordinates points :
  numeric coordinates points → mapM as_point coordinates = Some points.
Proof.
  intros Hnum. apply mapM_Some. eapply Forall2_impl; [exact Hnum|].
  intros c p (a & b & x & y & -> & Ha & Hb & ->). simpl. by rewrite Ha, Hb.
Qed.

Lemma tree_query_numeric data coordinates points :
  coordinates ≠ [] → numeric coordinates points →
  tree_query data coordinates = Ok (kd_nearest data <$> points).
Proof.
  intros Hne Hnum. unfold tree_query. destruct coordinates; [done|].
  by rewrite (numeric_as_points _ _ Hnum).
Qed.

Lemma tree_query_raise data coordinates e :
  tree_query data coordinates = Raise e → e = ValueError.
Proof.
  unfold tree_query. destruct coordinates; [by intros [= <-]|].
  destruct (mapM _ _); [done|by intros [= <-]].
Qed.

(** What a query does, case by case. *)
Lemma query_cases gd coordinates w :
  (tree_query (tree gd) coordinates = Raise ValueError ∧
   query gd coordinates w = (Raise ValueError, with_log w (UnableToParse coordinates)))
  ∨ (∃ indices, tree_query (tree gd) coordinates = Ok indices ∧
       ¬ Forall (λ i, i < length (locations gd)) indices ∧
       query gd coordinates w = (Raise IndexError, w))
  ∨ (∃ indices, tree_query (tree gd) coordinates = Ok indices ∧
       Forall (λ i, i < length (locations gd)) indices ∧
       query gd coordinates w = (Ok indices, with_instance w (resolved gd indices))).
Proof.
  unfold query. destruct (tree_query _ _) as [indices|e] eqn:Hq.
  - right. destruct (lookup_all (locations gd) indices) as [rs|e] eqn:Hl.
    + right. exists indices. destruct (lookup_all_inv _ _ _ Hl) as [-> Hall].
      split; [done|]. split; [done|]. done.
    + left. exists indices. split; [done|]. split.
      * intros Hall. by rewrite (lookup_all_ok _ _ Hall) in Hl.
      * by rewrite (lookup_all_raise _ _ _ Hl).
  - left. rewrite (tree_query_raise _ _ _ Hq). done.
Qed.

Lemma getinstance_built w gd :
  instances w = Some gd → getinstance w = (Ok gd, w).
Proof. intros Hw. unfold getinstance. by rewrite Hw. Qed.

Lemma search_built w gd coordinates :
  instances w = Some gd → search coordinates w = query gd coordinates w.
Proof. intros Hw. unfold search, bind. by rewrite (getinstance_built _ _ Hw). Qed.

End Queries.

(** The linear scan meets the contract of the search. *)
Lemma argmin_nearest x data : data ≠ [] → nearest_in data x (argmin x data).
Proof.
  induction data as [|p rest IH]; [done|]. intros _.
  destruct rest as [|p0 rest0] eqn:Hrest.
  - exists p. split; [done|]. intros p' Hp'. apply list_elem_of_singleton in Hp'.
    subst. apply Qle_refl.
  - rewrite <- Hrest in *. destruct IH as (q & Hq & Hmin); [by subst|].
    simpl. rewrite Hq. destruct (Qle_bool _ _) eqn:Hle.
    + exists p. split; [done|]. intros p' Hp'. apply elem_of_cons in Hp' as [->|Hp'].
      * apply Qle_refl.
      * apply Qle_bool_iff in Hle. eapply Qle_trans; [exact Hle|]. by apply Hmin.
    + exists q. split; [done|]. intros p' Hp'. apply elem_of_cons in Hp' as [->|Hp'].
      * apply Qlt_le_weak, Qnot_le_lt. intros Hc. apply Qle_bool_iff in Hc.
        by rewrite Hc in Hle.
      * by apply Hmin.
Qed.

(** ** The loop over the dump *)

Lemma truthy_true s : truthy s = true ↔ s ≠ "".
Proof. unfold truthy. rewrite negb_true_iff. apply String.eqb_neq. Qed.

Lemma slice_4_6 (r : row) a b :
  slice r 4 6 = [a; b] ↔ r !! 4 = Some a ∧ r !! 5 = Some b.
Proof.
  unfold slice. do 6 (destruct r as [|? r]; [simpl; split; [done|by intros [? ?]]|]).
  simpl. rewrite take_0. split; [by intros [= -> ->]|by intros [[= ->] [= ->]]].
Qed.

Lemma extract_row_kept r c :
  extract_row r = Ok (Some c) →
  ∃ lat lon cc ty name admin1,
    r !! 4 = Some lat ∧ r !! 5 = Some lon ∧ r !! 8 = Some cc ∧
    r !! 7 = Some ty ∧ r !! 1 = Some name ∧ r !! 10 = Some admin1 ∧
    lat ≠ "" ∧ lon ≠ "" ∧ cc ≠ "" ∧ (ty ∉ ["PPLX"; "PPLA3"; "PPLH"]) ∧
    is_moscow_part admin1 cc ty = false ∧ c = [lat; lon; cc; name].
Proof.
  unfold extract_row, index.
  destruct (slice r 4 6) as [|lat [|lon [|? ?]]] eqn:Hs; try done.
  apply slice_4_6 in Hs as [Hlat Hlon].
  destruct (r !! 8) as [cc|] eqn:Hcc; simpl; [|done].
  destruct (truthy lat) eqn:Tlat; simpl; [|done].
  destruct (truthy lon) eqn:Tlon; simpl; [|done].
  destruct (truthy cc) eqn:Tcc; simpl; [|done].
  destruct (r !! 1) as [name|] eqn:Hname; simpl; [|done].
  destruct (r !! 7) as [ty|] eqn:Hty; simpl; [|done].
  destruct (r !! 10) as [admin1|] eqn:Hadm; simpl; [|done].
  case_bool_decide as Hex; simpl; [done|].
  destruct (is_moscow_part admin1 cc ty) eqn:Hm; simpl; [done|].
  intros [= <-]. exists lat, lon, cc, ty, name, admin1.
  rewrite <- !truthy_true. done.
Qed.

Lemma retained_passes r c :
  retained r = Some c →
  passes r ∧ c = [r !!! 4; r !!! 5; r !!! 8; r !!! 1].
Proof.
  unfold retained. destruct (extract_row r) as [[c'|]|] eqn:Hr; try done.
  intros [= <-].
  destruct (extract_row_kept _ _ Hr)
    as (lat & lon & cc & ty & name & admin1 & H4 & H5 & H8 & H7 & H1 & _
        & ? & ? & ? & ? & _ & ->).
  split; [by exists lat, lon, cc, ty|].
  by rewrite !list_lookup_total_alt, H4, H5, H8, H1.
Qed.

Lemma load_rows_compact (dump : list row) :
  load_rows (omap retained dump)
  = Ok (coordinate_of <$> omap retained dump, record_of <$> omap retained dump).
Proof.
  induction dump as [|r dump IH]; [done|].
  change (omap retained (r :: dump))
    with (match retained r with
          | Some c => c :: omap retained dump
          | None => omap retained dump
          end).
  destruct (retained r) as [c|] eqn:Hr; [|done].
  destruct (retained_passes _ _ Hr) as [_ ->].
  rewrite !fmap_cons. cbn [load_rows]. by rewrite IH.
Qed.

(** The loop returns the rows it was given followed by the retained ones,
    has appended the latter to the compact file, and has touched nothing
    else. *)
Lemma extract_rows_out p dump acc w out w' :
  extract_rows p dump acc w = (Ok out, w') →
  out = (acc ++ omap retained dump)%list.
Proof.
  revert acc w. induction dump as [|r dump IH]; intros acc w; simpl.
  - intros [= <- _]. by rewrite app_nil_r.
  - unfold bind, lift, retained.
    destruct (extract_row r) as [[c|]|]; simpl; [| |done].
    + intros Hrec. apply IH in Hrec. by rewrite Hrec, <- app_assoc.
    + apply IH.
Qed.

Lemma extract_rows_world p dump acc w res w' :
  extract_rows p dump acc w = (res, w') →
  net w' = net w ∧ log w' = log w ∧ instances w' = instances w ∧
  (∀ q, q ≠ p → fs w' !! q = fs w !! q) ∧
  (fs w !! p = None → fs w' !! p = None).
Proof.
  revert acc w. induction dump as [|r dump IH]; intros acc w; simpl.
  - by intros [= _ <-].
  - unfold bind, lift.
    destruct (extract_row r) as [[c|]|]; simpl; [| |by intros [= _ <-]].
    + intros Hrec. apply IH in Hrec as (-> & -> & -> & Hfs & Hnone).
      simpl in *. repeat split; try done.
      * intros q Hq. rewrite Hfs by done. by rewrite lookup_alter_ne.
      * intros Hp. apply Hnone. by rewrite lookup_alter_eq, Hp.
    + apply IH.
Qed.

Lemma extract_rows_file p dump acc w out w' old :
  fs w !! p = Some (Text old) →
  extract_rows p dump acc w = (Ok out, w') →
  fs w' !! p = Some (Text (old ++ omap retained dump)).
Proof.
  revert acc w old. induction dump as [|r dump IH]; intros acc w old Hp; simpl.
  - intros [= _ <-]. by rewrite app_nil_r.
  - unfold bind, lift, retained.
    destruct (extract_row r) as [[c|]|]; simpl; [| |done].
    + intros Hrec. eapply (IH _ _ (old ++ [c])%list) in Hrec.
      * by rewrite Hrec, <- app_assoc.
      * simpl. by rewrite lookup_alter_eq, Hp.
    + by apply IH.
Qed.

(** The loop body on a row of the Moscow region. *)
Lemma extract_row_moscow (r : row) (lat lon ty name : string) :
  r !! 1 = Some name → r !! 4 = Some lat → r !! 5 = Some lon →
  r !! 7 = Some ty → r !! 8 = Some "RU" → r !! 10 = Some "48" →
  lat ≠ "" → lon ≠ "" →
  extract_row r
  = Ok (if decide (ty = "PPLC") then Some [lat; lon; "RU"; name] else None).
Proof.
  intros H1 H4 H5 H7 H8 H10 Hlat Hlon. unfold extract_row, index.
  rewrite (proj2 (slice_4_6 r lat lon) (conj H4 H5)), H8, H1, H7, H10. simpl.
  rewrite (proj2 (truthy_true lat) Hlat), (proj2 (truthy_true lon) Hlon). simpl.
  destruct (decide (ty = "PPLC")) as [->|Hty]; [done|].
  case_bool_decide; simpl; [done|].
  unfold is_moscow_part. simpl.
  apply String.eqb_neq in Hty. by rewrite Hty.
Qed.

(** ** Running [__extract] *)

Section Ingestion.

Context `{Env}.

(** With the compact file in place, [__extract] only reads it. *)
Lemma extract_cached p w rows :
  fs w !! p = Some (Text rows) → __extract p w = (load_rows rows, w).
Proof.
  intros Hp. unfold __extract, bind, path_exists, csv_reader, lift.
  rewrite Hp, bool_decide_eq_true_2 by eauto. by rewrite Hp.
Qed.

(** Without it, a run that returns fetched the archive, has left the
    retained rows in the compact file and built its output from them. *)
Lemma extract_first_run p w out w1 :
  p ≠ GEOCODE_FILENAME → p ≠ abspath (basename GEOCODE_URL) →
  fs w !! p = None → __extract p w = (Ok out, w1) →
  fs w !! GEOCODE_FILENAME = None ∧
  ∃ dump, fs w1 !! p = Some (Text (omap retained dump)) ∧
          load_rows (omap retained dump) = Ok out.
Proof.
  intros Hdump Hzip Hp Hrun. unfold __extract in Hrun.
  apply bind_Ok_inv in Hrun as (cached & wa & [= <- <-] & Hrun).
  rewrite Hp, bool_decide_eq_false_2 in Hrun by (by intros [? ?]).
  apply bind_Ok_inv in Hrun as (rows & wb & Hrows & Hload).
  apply bind_Ok_inv in Hrows as (dumped & wc & [= <- <-] & Hrows).
  apply bind_Ok_inv in Hrows as (downloaded & wd & Hdl & Hrows).
  apply bind_Ok_inv in Hrows as ([] & we & [= <-] & Hrows).
  apply bind_Ok_inv in Hrows as (dump & wf & Hread & Hrows).
  apply bind_Ok_inv in Hrows as (kept & wg & Hloop & Hrows).
  apply bind_Ok_inv in Hrows as ([] & wh & Hrm1 & Hrows).
  apply bind_Ok_inv in Hrows as ([] & wi & Hrm2 & [= <- <-]).
  injection Hload as Hload <-.
  destruct (bool_decide (is_Some (fs w !! GEOCODE_FILENAME))) eqn:Hdumped;
    simpl in Hdl.
  { injection Hdl as <- <-. done. }
  apply bool_decide_eq_false in Hdumped.
  split. { destruct (fs w !! GEOCODE_FILENAME) eqn:E; [|done]. destruct Hdumped. eauto. }
  apply bind_Ok_inv in Hdl as (d & w2 & Hd & Hdl).
  apply bind_Ok_inv in Hdl as ([] & w3 & _ & Hdl).
  apply bind_Ok_inv in Hdl as (z & w4 & _ & Hdl).
  apply bind_Ok_inv in Hdl as ([] & w5 & _ & Hdl).
  apply bind_Ok_inv in Hdl as ([] & w6 & _ & [= <- <-]).
  unfold __download in Hd.
  apply bind_Ok_inv in Hd as (present & w7 & _ & Hd).
  apply bind_Ok_inv in Hd as ([] & w8 & _ & [= <- _]).
  apply os_remove_Ok_inv in Hrm1 as ->. apply os_remove_Ok_inv in Hrm2 as ->.
  unfold csv_reader in Hread. simpl in Hread.
  destruct (<[p:=Text []]> (fs w6) !! GEOCODE_FILENAME) as [[rows|?]|] eqn:E;
    try done.
  injection Hread as -> <-.
  pose proof (extract_rows_out _ _ _ _ _ _ Hloop) as ->. simpl in Hload.
  eapply (extract_rows_file _ _ _ _ _ _ []) in Hloop;
    [|by simpl; rewrite lookup_insert_eq].
  exists dump. split; [|done]. simpl.
  by rewrite !lookup_delete_ne.
Qed.

(** With the dump on disk and no compact file, [__extract] never returns:
    it has nothing bound to [downloadedFile] when it comes to remove it. *)
Lemma extract_with_local_dump p w out w1 :
  fs w !! p = None → is_Some (fs w !! GEOCODE_FILENAME) →
  __extract p w ≠ (Ok out, w1).
Proof.
  intros Hp Hdumped Hrun. unfold __extract in Hrun.
  apply bind_Ok_inv in Hrun as (cached & wa & [= <- <-] & Hrun).
  rewrite Hp, bool_decide_eq_false_2 in Hrun by (by intros [? ?]).
  apply bind_Ok_inv in Hrun as (rows & wb & Hrows & _).
  apply bind_Ok_inv in Hrows as (dumped & wc & [= <- <-] & Hrows).
  rewrite bool_decide_eq_true_2 in Hrows by done. simpl in Hrows.
  apply bind_Ok_inv in Hrows as (downloaded & wd & [= <- <-] & Hrows).
  apply bind_Ok_inv in Hrows as ([] & we & _ & Hrows).
  apply bind_Ok_inv in Hrows as (dump & wf & _ & Hrows).
  apply bind_Ok_inv in Hrows as (kept & wg & _ & Hrows).
  by apply bind_Ok_inv in Hrows as ([] & wh & [=] & _).
Qed.

End Ingestion.

(** ** Construction *)

Lemma load_rows_length rows out :
  load_rows rows = Ok out → length out.1 = length out.2.
Proof.
  revert out. induction rows as [|r rows IH]; simpl; intros out.
  - by intros [= <-].
  - destruct r as [|a [|b [|c [|d [|? ?]]]]]; try done.
    destruct (load_rows rows) as [out'|]; simpl; [|done].
    intros [= <-]. simpl. f_equal. by apply IH.
Qed.

Section Construction.

Context `{Env}.

Lemma KDTree_Ok coordinates data :
  KDTree coordinates = Ok data →
  data ≠ [] ∧ length data = length coordinates.
Proof.
  unfold KDTree. destruct coordinates as [|c cs]; [done|].
  destruct (mapM _ _) as [data'|] eqn:E; [|done]. intros [= <-].
  apply length_mapM in E. split; [by intros ->|done].
Qed.

(** A service that [__init__] returns has one record per point of its
    tree and at least one point. *)
Lemma init_service_ok w gd w' : __init__ w = (Ok gd, w') → service_ok gd.
Proof.
  unfold __init__. intros Hrun.
  apply bind_Ok_inv in Hrun as (out & wa & Hout & Hrun).
  apply bind_Ok_inv in Hrun as (t & wb & [= Ht <-] & Hrun).
  apply bind_Ok_inv in Hrun as (c & wc & _ & [= <- _]).
  unfold __extract in Hout.
  apply bind_Ok_inv in Hout as (cached & wd & _ & Hout).
  apply bind_Ok_inv in Hout as (rows & we & _ & [= Hload _]).
  destruct (KDTree_Ok _ _ Ht) as [Hne Hlen]. split; simpl; [|done].
  by rewrite Hlen, (load_rows_length _ _ Hload).
Qed.

Lemma getinstance_service_ok w gd w' :
  instances w = None → getinstance w = (Ok gd, w') →
  service_ok gd ∧ instances w' = Some gd.
Proof.
  unfold getinstance. intros ->. intros Hrun.
  apply bind_Ok_inv in Hrun as (gd' & wa & Hinit & [= <- <-]).
  split; [by eapply init_service_ok|done].
Qed.

End Construction.

(** ** The state a call leaves *)

Section QueryClaims.

Context `{Env}.

Lemma getinstance_Ok w gd w0 :
  world_ok w → getinstance w = (Ok gd, w0) →
  instances w0 = Some gd ∧ service_ok gd.
Proof.
  intros Hok Hget. destruct (instances w) as [gd'|] eqn:Hw.
  - rewrite (getinstance_built _ _ Hw) in Hget. injection Hget as -> ->.
    split; [done|by apply Hok].
  - by destruct (getinstance_service_ok _ _ _ Hw Hget).
Qed.

(** A well-formed query, by what the tree answers. *)
Lemma search_matched w gd w0 coordinates points :
  getinstance w = (Ok gd, w0) → coordinates ≠ [] →
  numeric coordinates points → matched gd points →
  search coordinates w
  = (Ok (kd_nearest (tree gd) <$> points),
     with_instance w0 (resolved gd (kd_nearest (tree gd) <$> points))).
Proof.
  intros Hget Hcs Hnum Hin. unfold search, bind. rewrite Hget.
  pose proof (tree_query_numeric (tree gd) _ _ Hcs Hnum) as Hq.
  destruct (query_cases gd coordinates w0)
    as [[Hq' _]|[(ix & Hq' & Hbad & _)|(ix & Hq' & _ & ->)]];
    rewrite Hq in Hq'; [done| |by inversion Hq'].
  inversion Hq'; subst ix. destruct Hbad. by apply Forall_fmap.
Qed.


Lemma deref_with_instance w gd j :
  deref (with_instance w gd) j = locations gd !! j.
Proof. done. Qed.

Lemma query_state gd coordinates w :
  let w' := (query gd coordinates w).2 in
  fs w' = fs w ∧ net w' = net w ∧
  (instances w' = instances w ∨
   ∃ rs, instances w' = Some (resolved gd rs)).
Proof.
  destruct (query_cases gd coordinates w)
    as [[_ ->]|[(ix & _ & _ & ->)|(ix & _ & _ & ->)]]; simpl; eauto.
Qed.

Lemma resolved_nil gd : resolved gd [] = gd.
Proof. by destruct gd. Qed.

Lemma resolved_app gd rs rs' :
  resolved (resolved gd rs) rs' = resolved gd (rs ++ rs').
Proof. unfold resolved. simpl. by rewrite foldl_app. Qed.

(** A call resolves the records it hands out, and nothing else. *)
Lemma run_call_refs w gd c :
  instances w = Some gd →
  instances (run_call w c) = Some (resolved gd (refs_of_call w c)) ∧
  fs (run_call w c) = fs w.
Proof.
  intros Hw. destruct c as [c|cs]; simpl.
  - unfold get, bind. rewrite (getinstance_built _ _ Hw).
    destruct (query_cases gd [c] w)
      as [[_ ->]|[(ix & _ & _ & ->)|(ix & Hq & _ & ->)]]; simpl;
      try by rewrite resolved_nil.
    unfold tree_query in Hq. simpl in Hq.
    destruct (as_point c) as [x|]; simpl in Hq; [|done].
    injection Hq as <-. done.
  - rewrite (search_built _ _ _ Hw).
    destruct (query_cases gd cs w)
      as [[_ ->]|[(ix & _ & _ & ->)|(ix & _ & _ & ->)]]; simpl;
      try by rewrite resolved_nil.
    done.
Qed.

End QueryClaims.

(** * The claims *)




(** C2: once a first run, with no compact file, has built its output from
    the raw dump, a run that finds the compact file the first run wrote
    reads nothing else and returns the same coordinate and record
    sequences, element by element and in order. *)
Theorem second_run_reads_the_same `{Env} (p : string) (w : world)
    (out : list (string * string) * list location) (w1 : world) :
  p ≠ GEOCODE_FILENAME → p ≠ abspath (basename GEOCODE_URL) →
  fs w !! p = None →
  __extract p w = (Ok out, w1) →
  ∀ w2, fs w2 !! p = fs w1 !! p → __extract p w2 = (Ok out, w2).
Proof.
  intros Hdump Hzip Hp Hrun w2 Hsame.
  destruct (extract_first_run _ _ _ _ Hdump Hzip Hp Hrun)
    as (_ & dump & Hfile & Hload).
  rewrite Hfile in Hsame. by rewrite (extract_cached _ _ _ Hsame), Hload.
Qed.

Lemma second_run_reads_the_same_witness :
  @__extract posix "/srv/geo/geocode.csv"
             (@__extract posix "/srv/geo/geocode.csv" fresh_world).2
  = (Ok sample_output, (@__extract posix "/srv/geo/geocode.csv" fresh_world).2).
Proof.
  apply (@second_run_reads_the_same posix "/srv/geo/geocode.csv" fresh_world
           sample_output (@__extract posix "/srv/geo/geocode.csv" fresh_world).2).
  - discriminate.
  - discriminate.
  - reflexivity.
  - vm_compute. reflexivity.
  - reflexivity.
Defined.

(** C3: the rows the loop over the dump retains are the ones it writes to
    the compact file and the ones the output sequences are built from, each
    comes from a dump row with latitude, longitude and country code not
    empty and a place type outside the excluded three, and a dump row that
    fails one of these conditions contributes nothing. *)
Theorem retained_rows_pass_the_filter (p : string) (dump old : list row)
    (w : world) (out : list row) (w' : world) :
  fs w !! p = Some (Text old) →
  extract_rows p dump [] w = (Ok out, w') →
  out = omap retained dump ∧
  fs w' !! p = Some (Text (old ++ out)) ∧
  load_rows out = Ok (coordinate_of <$> out, record_of <$> out) ∧
  (∀ c, c ∈ out →
     ∃ r, r ∈ dump ∧ retained r = Some c ∧ passes r ∧
          c = [r !!! 4; r !!! 5; r !!! 8; r !!! 1]) ∧
  (∀ r, r ∈ dump → ¬ passes r → retained r = None).
Proof.
  intros Hp Hrun. pose proof (extract_rows_out _ _ _ _ _ _ Hrun) as ->.
  simpl. split; [done|]. split; [by eapply extract_rows_file|].
  split; [apply load_rows_compact|]. split.
  - intros c Hc. apply list_elem_of_omap in Hc as (r & Hr & Hc).
    exists r. destruct (retained_passes _ _ Hc). done.
  - intros r _ Hfail. destruct (retained r) as [c|] eqn:Hr; [|done].
    destruct Hfail. by destruct (retained_passes _ _ Hr).
Qed.

Lemma retained_rows_pass_the_filter_witness :
  sample_compact = omap retained sample_dump ∧
  fs (extract_rows "/srv/geo/geocode.csv" sample_dump [] empty_cache_world).2
    !! "/srv/geo/geocode.csv" = Some (Text ([] ++ sample_compact)) ∧
  load_rows sample_compact
  = Ok (coordinate_of <$> sample_compact, record_of <$> sample_compact) ∧
  (∀ c, c ∈ sample_compact →
     ∃ r, r ∈ sample_dump ∧ retained r = Some c ∧ passes r ∧
          c = [r !!! 4; r !!! 5; r !!! 8; r !!! 1]) ∧
  (∀ r, r ∈ sample_dump → ¬ passes r → retained r = None).
Proof.
  apply (retained_rows_pass_the_filter "/srv/geo/geocode.csv" sample_dump []
           empty_cache_world sample_compact).
  - vm_compute. reflexivity.
  - vm_compute. reflexivity.
Defined.

(** C4: a dump row of the Moscow region (admin1 code 48, country RU) that is
    otherwise well formed is dropped by the loop when its place type is not
    the capital code, and retained when it is. *)
Theorem moscow_parts_are_dropped (r : row) (lat lon ty name : string) :
  r !! 1 = Some name → r !! 4 = Some lat → r !! 5 = Some lon →
  r !! 7 = Some ty → r !! 8 = Some "RU" → r !! 10 = Some "48" →
  lat ≠ "" → lon ≠ "" →
  (ty ≠ "PPLC" → extract_row r = Ok None) ∧
  (ty = "PPLC" → extract_row r = Ok (Some [lat; lon; "RU"; name])) ∧
  ∀ p pre post w out w',
    extract_rows p (pre ++ r :: post) [] w = (Ok out, w') →
    out = (omap retained pre
           ++ (if decide (ty = "PPLC") then [[lat; lon; "RU"; name]] else [])
           ++ omap retained post)%list.
Proof.
  intros H1 H4 H5 H7 H8 H10 Hlat Hlon.
  pose proof (extract_row_moscow r lat lon ty name H1 H4 H5 H7 H8 H10 Hlat Hlon)
    as Hrow.
  split; [|split].
  - intros Hty. by rewrite Hrow, decide_False.
  - intros Hty. by rewrite Hrow, decide_True.
  - intros p pre post w out w' Hrun.
    rewrite (extract_rows_out _ _ _ _ _ _ Hrun). simpl.
    rewrite omap_app. f_equal. simpl. unfold retained at 1. rewrite Hrow.
    by destruct (decide (ty = "PPLC")).
Qed.

Lemma moscow_parts_are_dropped_witness :
  ("PPL" ≠ "PPLC" →
   extract_row (dump_row "Cheremushki" "55.66" "37.55" "PPL" "RU" "48") = Ok None) ∧
  ("PPL" = "PPLC" →
   extract_row (dump_row "Cheremushki" "55.66" "37.55" "PPL" "RU" "48")
   = Ok (Some ["55.66"; "37.55"; "RU"; "Cheremushki"])) ∧
  ∀ p pre post w out w',
    extract_rows p
      (pre ++ dump_row "Cheremushki" "55.66" "37.55" "PPL" "RU" "48" :: post) [] w
    = (Ok out, w') →
    out = (omap retained pre
           ++ (if decide ("PPL" = "PPLC")
               then [["55.66"; "37.55"; "RU"; "Cheremushki"]] else [])
           ++ omap retained post)%list.
Proof.
  apply (moscow_parts_are_dropped
           (dump_row "Cheremushki" "55.66" "37.55" "PPL" "RU" "48"));
    (reflexivity || discriminate).
Defined.

(** C5, as stated, fails: the first search that matches a stored record
    writes the [country] entry into that very record. *)
Lemma search_changes_stored_records :
  instances (@run_call posix built_world (CallSearch sample_query))
  ≠ instances built_world.
Proof.
  intros Heq.
  apply (f_equal (λ o, gd ← o; l ← locations gd !! 0; country l)) in Heq.
  vm_compute in Heq. discriminate.
Qed.

(** C5, amended: after construction, whatever sequence of [get] and [search]
    calls is made, the singleton is still there, the files, the tree and the
    country catalogue are as they were, and the stored records are the same
    in number and order; the records the calls handed out, and only those,
    have had their country resolved from the catalogue. *)
Theorem queries_only_resolve_countries `{Env} (w : world) (gd : GeocodeData)
    (calls : list call) :
  instances w = Some gd →
  ∃ gd', instances (foldl run_call w calls) = Some gd' ∧
    fs (foldl run_call w calls) = fs w ∧
    tree gd' = tree gd ∧ countries gd' = countries gd ∧
    length (locations gd') = length (locations gd) ∧
    ∀ j, locations gd' !! j
         = (if decide (j ∈ refs_of_calls w calls)
            then set_country (countries gd) else id) <$> locations gd !! j.
Proof.
  intros Hw. exists (resolved gd (refs_of_calls w calls)).
  assert (instances (foldl run_call w calls)
          = Some (resolved gd (refs_of_calls w calls))
          ∧ fs (foldl run_call w calls) = fs w) as [Hi Hfs].
  { revert w gd Hw. induction calls as [|c calls IH]; intros w gd Hw; simpl.
    - by rewrite resolved_nil.
    - destruct (run_call_refs w gd c Hw) as [Hw1 Hfs1].
      destruct (IH _ _ Hw1) as [Hw2 Hfs2].
      rewrite Hw2, Hfs2, Hfs1, resolved_app. done. }
  repeat split; try done.
  - apply resolved_length.
  - intros j. apply resolved_lookup.
Qed.

Lemma queries_only_resolve_countries_witness :
  ∃ gd', instances (foldl (@run_call posix) built_world
                          [CallSearch sample_query; CallGet [PyStr "x"]])
         = Some gd' ∧
    fs (foldl (@run_call posix) built_world
              [CallSearch sample_query; CallGet [PyStr "x"]]) = fs built_world ∧
    tree gd' = tree sample_service ∧
    countries gd' = countries sample_service ∧
    length (locations gd') = length (locations sample_service) ∧
    ∀ j, locations gd' !! j
         = (if decide (j ∈ @refs_of_calls posix built_world
                            [CallSearch sample_query; CallGet [PyStr "x"]])
            then set_country (countries sample_service) else id)
             <$> locations sample_service !! j.
Proof.
  apply (@queries_only_resolve_countries posix built_world sample_service).
  vm_compute. reflexivity.
Defined.

(** C6, as stated, fails: the tree refuses an empty array of points. *)
Lemma search_empty_is_an_error :
  ¬ ∃ w', @search posix [] built_world = (Ok [], w').
Proof. intros [w' Hs]. vm_compute in Hs. discriminate. Qed.

(** C6, amended: on a constructed service, [search] of an empty sequence
    raises the tree's [ValueError] after logging it, returns no sequence, and
    leaves files and singleton as they were. *)
Theorem search_empty_raises `{Env} (w : world) (gd : GeocodeData) :
  instances w = Some gd →
  search [] w = (Raise ValueError, with_log w (UnableToParse [])).
Proof. intros Hw. by rewrite (search_built _ _ _ Hw). Qed.

Lemma search_empty_raises_witness :
  @search posix [] built_world
  = (Raise ValueError, with_log built_world (UnableToParse [])).
Proof.
  apply (@search_empty_raises posix built_world sample_service).
  vm_compute. reflexivity.
Defined.

(** C7: with the raw dump on disk and no compact file, the run fetches
    nothing, filters the dump and writes the compact file, but then raises
    [UnboundLocalError] instead of returning the output, and leaves the dump
    in place. *)
Theorem local_dump_run_raises :
  (@__extract posix "/srv/geo/geocode.csv" dumped_world).1
  = Raise UnboundLocalError ∧
  log (@__extract posix "/srv/geo/geocode.csv" dumped_world).2 = [] ∧
  fs (@__extract posix "/srv/geo/geocode.csv" dumped_world).2
    !! "/srv/geo/geocode.csv" = Some (Text sample_compact) ∧
  fs (@__extract posix "/srv/geo/geocode.csv" dumped_world).2
    !! GEOCODE_FILENAME = Some (Text sample_dump).
Proof. repeat split; vm_compute; reflexivity. Qed.

(** C8: when the tree's query raises its input-parsing error, [query] (and
    [search] through it) logs the coordinates, raises the same error to its
    caller, and leaves the records, the tree, the catalogue and the files as
    they were. *)
Theorem parse_error_is_logged_and_raised `{Env} (w : world) (gd : GeocodeData)
    (coordinates : list (list pyval)) :
  instances w = Some gd →
  tree_query (tree gd) coordinates = Raise ValueError →
  query gd coordinates w = (Raise ValueError, with_log w (UnableToParse coordinates)) ∧
  search coordinates w = (Raise ValueError, with_log w (UnableToParse coordinates)) ∧
  instances (search coordinates w).2 = Some gd ∧
  fs (search coordinates w).2 = fs w ∧
  log (search coordinates w).2 = (log w ++ [UnableToParse coordinates])%list.
Proof.
  intros Hw Hq. rewrite (search_built _ _ _ Hw).
  destruct (query_cases gd coordinates w)
    as [[_ ->]|[(ix & Hq' & _)|(ix & Hq' & _)]]; [|congruence..].
  simpl. by rewrite Hw.
Qed.

Lemma parse_error_is_logged_and_raised_witness :
  @query posix sample_service [[PyStr "north"; PyFloat 37.53]] built_world
  = (Raise ValueError,
     with_log built_world (UnableToParse [[PyStr "north"; PyFloat 37.53]])) ∧
  @search posix [[PyStr "north"; PyFloat 37.53]] built_world
  = (Raise ValueError,
     with_log built_world (UnableToParse [[PyStr "north"; PyFloat 37.53]])) ∧
  instances (@search posix [[PyStr "north"; PyFloat 37.53]] built_world).2
  = Some sample_service ∧
  fs (@search posix [[PyStr "north"; PyFloat 37.53]] built_world).2
  = fs built_world ∧
  log (@search posix [[PyStr "north"; PyFloat 37.53]] built_world).2
  = (log built_world ++ [UnableToParse [[PyStr "north"; PyFloat 37.53]]])%list.
Proof.
  apply (@parse_error_is_logged_and_raised posix built_world sample_service).
  - vm_compute. reflexivity.
  - reflexivity.
Defined.

(** C9: [get(c)] is [search([c])[0]]: the same reference, error or world. *)
Theorem get_is_first_of_search `{Env} (coordinate : list pyval) (w : world) :
  get coordinate w
  = (results <- search [coordinate] ;; lift (index results 0)) w.
Proof.
  unfold get, search, bind. destruct (getinstance w) as [[gd|e] w1]; [|done].
  by destruct (query gd [coordinate] w1) as [[rs|e] w2].
Qed.

(** C10: when the service is, or can be, constructed, a non-empty
    well-formed query whose coordinates each match a stored record succeeds
    with one result per coordinate, whether or not the catalogue knows the
    matched record's country code: the result for coordinate [i] is the
    matched record with the empty string as country when its code is absent
    from the catalogue, and the mapped name when it is present. *)
Theorem country_is_name_or_empty `{Env} (w w0 : world) (gd : GeocodeData)
    (coordinates : list (list pyval)) (points : list (Q * Q)) :
  getinstance w = (Ok gd, w0) →
  coordinates ≠ [] → numeric coordinates points → matched gd points →
  ∃ results w',
    search coordinates w = (Ok results, w') ∧
    length results = length coordinates ∧
    ∀ i x, points !! i = Some x →
      ∃ l l', results !! i = Some (kd_nearest (tree gd) x) ∧
        locations gd !! kd_nearest (tree gd) x = Some l ∧
        deref w' (kd_nearest (tree gd) x) = Some l' ∧
        country_code l' = country_code l ∧ city l' = city l ∧
        (countries gd !! country_code l = None → country l' = Some "") ∧
        (∀ name, countries gd !! country_code l = Some name →
                 country l' = Some name).
Proof.
  intros Hget Hne Hnum Hin.
  eexists _, _. split; [by apply search_matched|]. split.
  { rewrite length_fmap. symmetry. by eapply Forall2_length. }
  intros i x Hx.
  assert (x ∈ points) as Hxin by by eapply list_elem_of_lookup_2.
  destruct (lookup_lt_is_Some_2 (locations gd) (kd_nearest (tree gd) x)) as [l Hl].
  { unfold matched in Hin. rewrite Forall_forall in Hin. by apply Hin. }
  exists l, (set_country (countries gd) l).
  split; [by rewrite list_lookup_fmap, Hx|]. split; [done|]. split.
  { rewrite deref_with_instance, resolved_lookup, Hl.
    rewrite decide_True; [done|]. by apply list_elem_of_fmap_2. }
  repeat split; simpl; [by intros ->|by intros name ->].
Qed.

Lemma country_is_name_or_empty_witness :
  ∃ results w',
    @search posix [[PyFloat 42; PyFloat 21]; [PyFloat 31; PyFloat 35]] built_world
    = (Ok results, w') ∧
    length results = length [[PyFloat 42; PyFloat 21]; [PyFloat 31; PyFloat 35]] ∧
    ∀ i x, [(42, 21); (31, 35)]%Q !! i = Some x →
      ∃ l l', results !! i = Some (@kd_nearest posix (tree sample_service) x) ∧
        locations sample_service !! @kd_nearest posix (tree sample_service) x
        = Some l ∧
        deref w' (@kd_nearest posix (tree sample_service) x) = Some l' ∧
        country_code l' = country_code l ∧ city l' = city l ∧
        (countries sample_service !! country_code l = None →
         country l' = Some "") ∧
        (∀ name, countries sample_service !! country_code l = Some name →
                 country l' = Some name).
Proof.
  apply (@country_is_name_or_empty posix built_world built_world sample_service
           [[PyFloat 42; PyFloat 21]; [PyFloat 31; PyFloat 35]]
           [(42, 21); (31, 35)]%Q).
  - vm_compute. reflexivity.
  - discriminate.
  - repeat constructor; eexists _, _, _, _; repeat split; reflexivity.
  - repeat constructor.
Defined.

(** ** The sample installation *)

Example moscow_capital_is_retained :
  retained (dump_row "Moscow" "55.75" "37.61" "PPLC" "RU" "48")
  = Some ["55.75"; "37.61"; "RU"; "Moscow"].
Proof. reflexivity. Qed.

Example built_world_holds_sample_service :
  instances built_world = Some sample_service.
Proof. vm_compute. reflexivity. Qed.

(** * Further properties *)

(** ** What never touches the singleton *)

Lemma keeps_ret {A} (a : A) : keeps_instances (ret a).
Proof. by intros w r w' [= _ <-]. Qed.

Lemma keeps_raise {A} e : keeps_instances (@raise A e).
Proof. by intros w r w' [= _ <-]. Qed.

Lemma keeps_lift {A} (x : result A) : keeps_instances (lift x).
Proof. by intros w r w' [= _ <-]. Qed.

Lemma keeps_bind {A B} (m : M A) (k : A → M B) :
  keeps_instances m → (∀ a, keeps_instances (k a)) → keeps_instances (bind m k).
Proof.
  intros Hm Hk w r w'. unfold bind.
  destruct (m w) as [[a|e] w1] eqn:Em; intros Hr.
  - rewrite (Hk _ _ _ _ Hr). by eapply Hm.
  - injection Hr as _ <-. by eapply Hm.
Qed.

Lemma keeps_set_fs f : keeps_instances (set_fs f).
Proof. by intros w r w' [= _ <-]. Qed.

Lemma keeps_path_exists p : keeps_instances (path_exists p).
Proof. by intros w r w' [= _ <-]. Qed.

Lemma keeps_logging_info e : keeps_instances (logging_info e).
Proof. by intros w r w' [= _ <-]. Qed.

Lemma keeps_csv_reader p : keeps_instances (csv_reader p).
Proof.
  intros w r w'. unfold csv_reader.
  destruct (fs w !! p) as [[?|?]|]; by intros [= _ <-].
Qed.

Lemma keeps_ZipFile p : keeps_instances (ZipFile p).
Proof.
  intros w r w'. unfold ZipFile.
  destruct (fs w !! p) as [[?|?]|]; by intros [= _ <-].
Qed.

Lemma keeps_os_remove p : keeps_instances (os_remove p).
Proof.
  intros w r w'. unfold os_remove. destruct (fs w !! p); by intros [= _ <-].
Qed.

Lemma keeps_urlretrieve url p : keeps_instances (urlretrieve url p).
Proof.
  intros w r w'. unfold urlretrieve. destruct (net w !! url); by intros [= _ <-].
Qed.

Lemma keeps_extract_rows p dump acc : keeps_instances (extract_rows p dump acc).
Proof. intros w r w' Hrun. by apply extract_rows_world in Hrun as (_ & _ & ? & _). Qed.

Create HintDb keeps.
#[local] Hint Resolve keeps_ret keeps_raise keeps_lift keeps_set_fs
  keeps_path_exists keeps_logging_info keeps_csv_reader keeps_ZipFile
  keeps_os_remove keeps_urlretrieve keeps_extract_rows : keeps.

(** Walk a computation down its binds and branches. *)
Ltac keeps :=
  repeat first
    [ apply keeps_bind; [|intros ?]
    | match goal with
      | |- keeps_instances (if ?b then _ else _) => destruct b
      | |- keeps_instances (match ?x with _ => _ end) => destruct x
      end
    | solve [unfold open_w; auto with keeps] ].

Section Singleton.
Context `{Env}.

Lemma keeps_download : keeps_instances __download.
Proof. unfold __download. keeps. Qed.

Lemma keeps_extract p : keeps_instances (__extract p).
Proof. unfold __extract. pose proof keeps_download. keeps. Qed.

Lemma keeps_load_countries p : keeps_instances (__load_countries p).
Proof. unfold __load_countries. keeps. Qed.

Lemma keeps_init : keeps_instances __init__.
Proof.
  unfold __init__. pose proof keeps_extract. pose proof keeps_load_countries.
  keeps.
Qed.

Lemma resolved_service_ok gd rs : service_ok gd → service_ok (resolved gd rs).
Proof. intros [Hlen Hne]. split; [by rewrite resolved_length|done]. Qed.

Lemma query_world_ok gd coordinates w :
  service_ok gd → world_ok w → world_ok (query gd coordinates w).2.
Proof.
  intros Hgd Hw gd'.
  destruct (query_state gd coordinates w) as (_ & _ & [->|[rs ->]]).
  - apply Hw.
  - intros [= <-]. by apply resolved_service_ok.
Qed.

Lemma getinstance_Raise w e w' :
  getinstance w = (Raise e, w') → instances w = None ∧ instances w' = None.
Proof.
  unfold getinstance. destruct (instances w) as [gd|] eqn:Hw; [done|].
  unfold bind. destruct (__init__ w) as [[gd|e'] w1] eqn:Hinit; [done|].
  intros [= _ <-]. split; [done|]. by rewrite (keeps_init _ _ _ Hinit).
Qed.

Lemma search_world_ok w coordinates :
  world_ok w → world_ok (search coordinates w).2.
Proof.
  intros Hw. unfold search, bind.
  destruct (getinstance w) as [[gd|e] w0] eqn:Hget.
  - destruct (getinstance_Ok _ _ _ Hw Hget) as [Hw0 Hgd].
    apply query_world_ok; [done|]. intros gd'. rewrite Hw0. by intros [= <-].
  - apply getinstance_Raise in Hget as [_ Hnone]. intros gd'. simpl.
    by rewrite Hnone.
Qed.

Lemma get_world w coordinate : (get coordinate w).2 = (search [coordinate] w).2.
Proof.
  unfold get, search, bind. destruct (getinstance w) as [[gd|e] w0]; [|done].
  destruct (query gd [coordinate] w0) as [[rs|e] w1]; [|done].
  unfold lift. done.
Qed.

End Singleton.

(** ** The singleton *)

(** X1: once [getinstance] has returned the service, every later call
    returns the same service without constructing, fetching, logging or
    writing anything. *)
Theorem getinstance_constructs_once `{Env} (w w' : world) (gd : GeocodeData) :
  getinstance w = (Ok gd, w') → getinstance w' = (Ok gd, w').
Proof.
  intros Hget. apply getinstance_built. unfold getinstance in Hget.
  destruct (instances w) as [gd0|] eqn:Hw.
  - by injection Hget as <- <-.
  - by apply bind_Ok_inv in Hget as (gd1 & w1 & _ & [= <- <-]).
Qed.

Lemma getinstance_constructs_once_witness :
  @getinstance posix built_world = (Ok sample_service, built_world).
Proof.
  apply (@getinstance_constructs_once posix fresh_world).
  vm_compute. reflexivity.
Defined.

(** X2: a construction that raises leaves no instance behind, so the next
    call constructs again. *)
Theorem failed_construction_is_not_kept `{Env} (w w' : world) (e : exn) :
  getinstance w = (Raise e, w') →
  instances w = None ∧ instances w' = None ∧
  getinstance w' = (gd <- __init__ ;;
                    (λ w1, (Ok gd, with_instance w1 gd))) w'.
Proof.
  intros Hget. destruct (getinstance_Raise _ _ _ Hget) as [Hw Hw'].
  split; [done|]. split; [done|]. unfold getinstance. by rewrite Hw'.
Qed.

Lemma failed_construction_is_not_kept_witness :
  instances offline_world = None ∧
  instances (with_log offline_world (Downloading GEOCODE_URL)) = None ∧
  @getinstance posix (with_log offline_world (Downloading GEOCODE_URL))
  = (gd <- @__init__ posix ;; (λ w1, (Ok gd, with_instance w1 gd)))
      (with_log offline_world (Downloading GEOCODE_URL)).
Proof.
  apply (@failed_construction_is_not_kept posix offline_world
           (with_log offline_world (Downloading GEOCODE_URL)) URLError).
  vm_compute. reflexivity.
Defined.

(** X3: every world that calls can reach from one without an instance holds
    either no service or a constructed one: one stored record per point of
    the tree, and at least one point. *)
Theorem calls_keep_the_service_constructed `{Env} (w : world) (calls : list call) :
  world_ok w → world_ok (foldl run_call w calls).
Proof.
  revert w. induction calls as [|c calls IH]; intros w Hw; simpl; [done|].
  apply IH. destruct c as [c|cs]; simpl.
  - rewrite get_world. by apply search_world_ok.
  - by apply search_world_ok.
Qed.

Lemma calls_keep_the_service_constructed_witness :
  world_ok (foldl (@run_call posix) fresh_world
                  [CallGet [PyStr "x"]; CallSearch sample_query]).
Proof.
  apply (@calls_keep_the_service_constructed posix fresh_world).
  intros gd Hgd. discriminate Hgd.
Defined.

(** ** More on ingestion *)

Lemma load_rows_verbatim (rows : list row) :
  Forall (λ r, length r = 4) rows →
  load_rows rows = Ok (coordinate_of <$> rows, record_of <$> rows).
Proof.
  induction 1 as [|r rows Hr _ IH]; [done|].
  destruct r as [|a [|b [|c [|d [|? ?]]]]]; try done.
  cbn [load_rows]. by rewrite IH.
Qed.

Lemma load_rows_malformed (rows : list row) :
  Exists (λ r, length r ≠ 4) rows → load_rows rows = Raise ValueError.
Proof.
  induction 1 as [r rows Hr|r rows _ IH].
  - by destruct r as [|a [|b [|c [|d [|? ?]]]]].
  - destruct r as [|a [|b [|c [|d [|? ?]]]]]; try done.
    cbn [load_rows]. by rewrite IH.
Qed.

Lemma omap_retained_cons (r : row) (dump : list row) :
  omap retained (r :: dump)
  = match extract_row r with
    | Ok (Some c) => c :: omap retained dump
    | _ => omap retained dump
    end.
Proof. unfold retained. simpl. by destruct (extract_row r) as [[c|]|]. Qed.

Lemma extract_rows_total p dump acc w :
  Forall row_ok dump →
  ∃ w', extract_rows p dump acc w = (Ok (acc ++ omap retained dump)%list, w').
Proof.
  intros Hall. revert acc w.
  induction Hall as [|r dump [kept Hr] _ IH]; intros acc w.
  - exists w. simpl. by rewrite app_nil_r.
  - cbn [extract_rows]. unfold bind, lift. rewrite omap_retained_cons, Hr.
    destruct kept as [c|]; simpl.
    + destruct (IH (acc ++ [c])%list
                  (World (alter (λ f, match f with
                                      | Text rows => Text (rows ++ [c])
                                      | Archive _ => Text [c]
                                      end) p (fs w))
                         (net w) (log w) (instances w))) as [w' ->].
      exists w'. by rewrite <- app_assoc.
    + destruct (IH acc w) as [w' ->]. by exists w'.
Qed.

Lemma extract_rows_raise p pre r post acc w e old :
  Forall row_ok pre → extract_row r = Raise e →
  fs w !! p = Some (Text old) →
  ∃ w', extract_rows p (pre ++ r :: post) acc w = (Raise e, w') ∧
        fs w' !! p = Some (Text (old ++ omap retained pre)).
Proof.
  intros Hpre Hr. revert acc w old.
  induction Hpre as [|r0 pre [kept Hr0] _ IH]; intros acc w old Hp.
  - exists w. simpl. unfold bind, lift. rewrite Hr. by rewrite app_nil_r.
  - cbn [app extract_rows]. unfold bind, lift.
    rewrite omap_retained_cons, Hr0. destruct kept as [c|]; simpl.
    + edestruct (IH (acc ++ [c])%list) as (w' & -> & Hfile).
      { simpl. rewrite lookup_alter_eq, Hp. reflexivity. }
      exists w'. split; [done|]. by rewrite Hfile, <- app_assoc.
    + destruct (IH acc w old Hp) as (w' & -> & Hfile). by exists w'.
Qed.

Lemma bind_Ok {A B} (m : M A) (k : A → M B) w a w1 :
  m w = (Ok a, w1) → bind m k w = k a w1.
Proof. unfold bind. by intros ->. Qed.

Lemma bind_Raise {A B} (m : M A) (k : A → M B) w e w1 :
  m w = (Raise e, w1) → bind m k w = (Raise e, w1).
Proof. unfold bind. by intros ->. Qed.

Lemma path_exists_None p w : fs w !! p = None → path_exists p w = (Ok false, w).
Proof.
  intros Hp. unfold path_exists.
  by rewrite Hp, bool_decide_eq_false_2 by (by intros [? ?]).
Qed.

Lemma path_exists_Some p w :
  is_Some (fs w !! p) → path_exists p w = (Ok true, w).
Proof. intros Hp. unfold path_exists. by rewrite bool_decide_eq_true_2. Qed.

(** X4: rows found in the compact file are used as they are, in file
    order and with no filter applied; one row that does not have exactly
    four fields makes the whole run raise [ValueError].  Either way the run
    writes, fetches and logs nothing. *)
Theorem cached_rows_are_used_verbatim `{Env} (p : string) (w : world)
    (rows : list row) :
  fs w !! p = Some (Text rows) →
  (Forall (λ r, length r = 4) rows →
   __extract p w = (Ok (coordinate_of <$> rows, record_of <$> rows), w)) ∧
  (Exists (λ r, length r ≠ 4) rows → __extract p w = (Raise ValueError, w)).
Proof.
  intros Hp. rewrite (extract_cached _ _ _ Hp). split; intros Hrows.
  - by rewrite load_rows_verbatim.
  - by rewrite load_rows_malformed.
Qed.

Lemma cached_rows_are_used_verbatim_witness :
  (Forall (λ r, length r = 4) moscow_cache →
   @__extract posix "/srv/geo/geocode.csv" cached_world
   = (Ok (coordinate_of <$> moscow_cache, record_of <$> moscow_cache),
      cached_world)) ∧
  (Exists (λ r, length r ≠ 4) moscow_cache →
   @__extract posix "/srv/geo/geocode.csv" cached_world
   = (Raise ValueError, cached_world)).
Proof.
  apply (@cached_rows_are_used_verbatim posix "/srv/geo/geocode.csv"
           cached_world moscow_cache).
  reflexivity.
Defined.

(** X5: what the loop body does with a dump row, by the number of its
    fields: fewer than 6 is a [ValueError] (the slice does not unpack), 6 to
    8 an [IndexError] (no country code), 9 or 10 an [IndexError] only when
    latitude, longitude and country code are all non-empty (the row is
    skipped otherwise), and 11 or more never raises. *)
Theorem extract_row_by_length (r : row) :
  ((length r < 6)%nat → extract_row r = Raise ValueError) ∧
  ((6 ≤ length r < 9)%nat → extract_row r = Raise IndexError) ∧
  ((9 ≤ length r < 11)%nat →
   extract_row r
   = if truthy (r !!! 4) && truthy (r !!! 5) && truthy (r !!! 8)
     then Raise IndexError else Ok None) ∧
  ((11 ≤ length r)%nat → row_ok r).
Proof.
  unfold row_ok, extract_row, slice, index.
  do 11 (destruct r as [|? r];
         [simpl; repeat split; intros; try lia; try done;
          repeat (match goal with
                  | |- context [truthy ?s] => destruct (truthy s)
                  end; simpl; try done)|]).
  simpl. repeat split; intros; try lia.
  repeat (match goal with
          | |- context [truthy ?s] => destruct (truthy s)
          end; simpl; eauto).
  case_bool_decide; simpl; eauto.
  destruct (is_moscow_part _ _ _); simpl; eauto.
Qed.

(** X6: the first dump row that raises decides the outcome of the loop:
    the loop raises that row's exception and returns no rows, whatever
    follows the row in the dump. *)
Theorem first_bad_row_stops_the_loop (p : string) (pre : list row)
    (r : row) (post acc : list row) (w : world) (e : exn) :
  Forall row_ok pre → extract_row r = Raise e →
  (extract_rows p (pre ++ r :: post) acc w).1 = Raise e.
Proof.
  intros Hpre Hr. revert acc w.
  induction Hpre as [|r0 pre [kept Hr0] _ IH]; intros acc w.
  - simpl. unfold bind, lift. by rewrite Hr.
  - cbn [app extract_rows]. unfold bind, lift. rewrite Hr0.
    destruct kept as [c|]; simpl; apply IH.
Qed.

Lemma first_bad_row_stops_the_loop_witness :
  (extract_rows "/srv/geo/geocode.csv"
     (take 3 sample_dump ++ ["7"; "Nowhere"] :: drop 3 sample_dump)
     [] empty_cache_world).1
  = Raise ValueError.
Proof.
  apply (first_bad_row_stops_the_loop "/srv/geo/geocode.csv"
           (take 3 sample_dump) ["7"; "Nowhere"] (drop 3 sample_dump) []
           empty_cache_world ValueError).
  - repeat constructor; eexists; reflexivity.
  - reflexivity.
Defined.

(** X7: with a well-formed dump on disk and no compact file, the run
    raises [UnboundLocalError] and removes nothing: the dump stays, and so
    does the compact file the run opened.  The next run therefore takes the
    cached branch: it builds its output from whatever the compact file holds
    and neither parses the dump nor raises [UnboundLocalError] again. *)
Theorem local_dump_run_then_cache `{Env} (p : string) (w : world)
    (rows : list row) :
  p ≠ GEOCODE_FILENAME → fs w !! p = None →
  fs w !! GEOCODE_FILENAME = Some (Text rows) → Forall row_ok rows →
  ∃ w', __extract p w = (Raise UnboundLocalError, w') ∧
        fs w' !! GEOCODE_FILENAME = Some (Text rows) ∧
        ∃ cached, fs w' !! p = Some (Text cached) ∧
                  __extract p w' = (load_rows cached, w').
Proof.
  intros Hne Hp Hdump Hrows.
  set (w0 := World (<[p:=Text []]> (fs w)) (net w) (log w) (instances w)).
  destruct (extract_rows_total p rows [] w0 Hrows) as [w' Hloop].
  assert (fs w0 !! p = Some (Text [])) as Hp0 by apply lookup_insert_eq.
  pose proof (extract_rows_file _ _ _ _ _ _ _ Hp0 Hloop) as Hfile.
  destruct (extract_rows_world _ _ _ _ _ _ Hloop) as (_ & _ & _ & Hother & _).
  exists w'. split; [|split].
  - unfold __extract.
    rewrite (bind_Ok _ _ _ _ _ (path_exists_None _ _ Hp)).
    apply bind_Raise.
    rewrite (bind_Ok _ _ w true w) by (apply path_exists_Some; eauto).
    simpl. rewrite (bind_Ok _ _ w None w) by done.
    rewrite (bind_Ok _ _ w tt w0) by done.
    rewrite (bind_Ok _ _ w0 rows w0).
    2:{ unfold csv_reader. subst w0. simpl. by rewrite lookup_insert_ne, Hdump. }
    rewrite (bind_Ok _ _ _ _ _ Hloop). done.
  - rewrite Hother by done. subst w0. simpl. by rewrite lookup_insert_ne.
  - eexists. split; [exact Hfile|]. by rewrite (extract_cached _ _ _ Hfile).
Qed.

Lemma local_dump_run_then_cache_witness :
  ∃ w', @__extract posix "/srv/geo/geocode.csv" dumped_world
        = (Raise UnboundLocalError, w') ∧
        fs w' !! GEOCODE_FILENAME = Some (Text sample_dump) ∧
        ∃ cached, fs w' !! "/srv/geo/geocode.csv" = Some (Text cached) ∧
                  @__extract posix "/srv/geo/geocode.csv" w'
                  = (load_rows cached, w').
Proof.
  apply (@local_dump_run_then_cache posix "/srv/geo/geocode.csv" dumped_world
           sample_dump).
  - discriminate.
  - reflexivity.
  - reflexivity.
  - repeat constructor; eexists; reflexivity.
Defined.

(** X9: an empty compact file stops every construction: the tree refuses
    an empty array with [ValueError], and nothing is written or kept. *)
Theorem empty_cache_fails_construction `{Env} (w : world) :
  instances w = None → fs w !! rel_path "geocode.csv" = Some (Text []) →
  getinstance w = (Raise ValueError, w).
Proof.
  intros Hw Hp. unfold getinstance, __init__, bind. rewrite Hw.
  by rewrite (extract_cached _ _ _ Hp).
Qed.

Lemma empty_cache_fails_construction_witness :
  @getinstance posix empty_cache_world = (Raise ValueError, empty_cache_world).
Proof.
  apply (@empty_cache_fails_construction posix empty_cache_world);
    reflexivity.
Defined.

(** X8: a first run that returns has fetched and unpacked the dump, and has
    removed both the archive and the dump again; only the compact file
    stays, and the log ends with the notice of the extraction. *)
Theorem first_run_cleans_up `{Env} (p : string) (w : world)
    (out : list (string * string) * list location) (w1 : world) :
  p ≠ GEOCODE_FILENAME → p ≠ abspath (basename GEOCODE_URL) →
  fs w !! p = None → __extract p w = (Ok out, w1) →
  fs w1 !! GEOCODE_FILENAME = None ∧
  fs w1 !! abspath (basename GEOCODE_URL) = None ∧
  is_Some (fs w1 !! p) ∧
  last (log w1) = Some (Extracting GEOCODE_FILENAME) ∧
  net w1 = net w ∧ instances w1 = instances w.
Proof.
  intros Hdump Hzip Hp Hrun.
  pose proof (keeps_extract _ _ _ _ Hrun) as Hinst.
  set (zip := abspath (basename GEOCODE_URL)) in *.
  destruct (extract_first_run _ _ _ _ Hdump Hzip Hp Hrun)
    as (Hnodump & dump' & Hfile & _).
  unfold __extract in Hrun.
  rewrite (bind_Ok _ _ _ _ _ (path_exists_None _ _ Hp)) in Hrun.
  apply bind_Ok_inv in Hrun as (rows & wb & Hrows & [= _ <-]).
  rewrite (bind_Ok _ _ _ _ _ (path_exists_None _ _ Hnodump)) in Hrows.
  simpl in Hrows.
  apply bind_Ok_inv in Hrows as (downloaded & wd & Hdl & Hrows).
  apply bind_Ok_inv in Hrows as ([] & we & [= <-] & Hrows).
  apply bind_Ok_inv in Hrows as (dump & wf & Hread & Hrows).
  apply bind_Ok_inv in Hrows as (kept & wg & Hloop & Hrows).
  apply bind_Ok_inv in Hrows as ([] & wh & Hrm1 & Hrows).
  apply bind_Ok_inv in Hrows as ([] & wi & Hrm2 & [= _ <-]).
  apply bind_Ok_inv in Hdl as (d & w2 & Hd & Hdl).
  apply bind_Ok_inv in Hdl as ([] & w3 & [= <-] & Hdl).
  apply bind_Ok_inv in Hdl as (z & w4 & Hz & Hdl).
  apply bind_Ok_inv in Hdl as ([] & w5 & [= <-] & Hdl).
  apply bind_Ok_inv in Hdl as ([] & w6 & Hset & [= <- <-]).
  assert (w4 = World (fs w2) (net w2) (log w2 ++ [Extracting GEOCODE_FILENAME])
                     (instances w2)) as ->.
  { unfold ZipFile in Hz. simpl in Hz.
    destruct (fs w2 !! d) as [[?|?]|]; by injection Hz as _ <-. }
  assert (log w6 = (log w2 ++ [Extracting GEOCODE_FILENAME])%list
          ∧ net w6 = net w2) as [Hlog6 Hnet6].
  { destruct (z !! GEOCODE_FILENAME); [|done].
    unfold set_fs in Hset. by injection Hset as <-. }
  assert (net w2 = net w ∧ d = zip) as [Hnet2 ->].
  { unfold __download in Hd.
    apply bind_Ok_inv in Hd as (present & w7 & [= <- <-] & Hd).
    apply bind_Ok_inv in Hd as ([] & w8 & Hfetch & [= <- <-]).
    split; [|done]. destruct (negb _); simpl in Hfetch.
    - apply bind_Ok_inv in Hfetch as ([] & w9 & [= <-] & Hfetch).
      unfold urlretrieve in Hfetch. simpl in Hfetch.
      destruct (net w !! GEOCODE_URL); [|done].
      unfold set_fs in Hfetch. by injection Hfetch as <-.
    - by injection Hfetch as <-. }
  unfold csv_reader in Hread.
  assert (wf = World (<[p:=Text []]> (fs w6)) (net w6) (log w6) (instances w6))
    as ->.
  { simpl in Hread.
    destruct (<[p:=Text []]> (fs w6) !! GEOCODE_FILENAME) as [[?|?]|];
      by injection Hread as _ <-. }
  destruct (extract_rows_world _ _ _ _ _ _ Hloop) as (Hnetg & Hlogg & _ & _ & _).
  apply os_remove_Ok_inv in Hrm1 as ->. apply os_remove_Ok_inv in Hrm2 as ->.
  simpl in *. rewrite Hfile in *.
  repeat split; try done.
  - apply lookup_delete_eq.
  - destruct (decide (zip = GEOCODE_FILENAME)) as [->|?].
    + apply lookup_delete_eq.
    + rewrite lookup_delete_ne by done. apply lookup_delete_eq.
  - by rewrite Hlogg, Hlog6, last_snoc.
  - congruence.
Qed.

Lemma first_run_cleans_up_witness :
  fs (@__extract posix "/srv/geo/geocode.csv" fresh_world).2
    !! GEOCODE_FILENAME = None ∧
  fs (@__extract posix "/srv/geo/geocode.csv" fresh_world).2
    !! @abspath posix (basename GEOCODE_URL) = None ∧
  is_Some (fs (@__extract posix "/srv/geo/geocode.csv" fresh_world).2
             !! "/srv/geo/geocode.csv") ∧
  last (log (@__extract posix "/srv/geo/geocode.csv" fresh_world).2)
  = Some (Extracting GEOCODE_FILENAME) ∧
  net (@__extract posix "/srv/geo/geocode.csv" fresh_world).2 = net fresh_world ∧
  instances (@__extract posix "/srv/geo/geocode.csv" fresh_world).2
  = instances fresh_world.
Proof.
  apply (@first_run_cleans_up posix "/srv/geo/geocode.csv" fresh_world
           sample_output).
  - discriminate.
  - discriminate.
  - reflexivity.
  - vm_compute. reflexivity.
Defined.

(** X10: [__download] always answers with the archive's local path; it
    fetches only when no file is there, logging the download first, and a
    URL that serves nothing is a [URLError] that leaves the notice in the
    log and no file behind. *)
Theorem download_fetches_only_when_absent `{Env} (w : world) :
  (is_Some (fs w !! abspath (basename GEOCODE_URL)) →
   __download w = (Ok (abspath (basename GEOCODE_URL)), w)) ∧
  (fs w !! abspath (basename GEOCODE_URL) = None →
   ∀ f, net w !! GEOCODE_URL = Some f →
     __download w
     = (Ok (abspath (basename GEOCODE_URL)),
        World (<[abspath (basename GEOCODE_URL) := f]> (fs w)) (net w)
              (log w ++ [Downloading GEOCODE_URL]) (instances w))) ∧
  (fs w !! abspath (basename GEOCODE_URL) = None →
   net w !! GEOCODE_URL = None →
   __download w = (Raise URLError, with_log w (Downloading GEOCODE_URL))).
Proof.
  set (zip := abspath (basename GEOCODE_URL)).
  split; [|split].
  - intros Hzip. unfold __download. fold zip.
    by rewrite (bind_Ok _ _ _ _ _ (path_exists_Some _ _ Hzip)).
  - intros Hzip f Hnet. unfold __download. fold zip.
    rewrite (bind_Ok _ _ _ _ _ (path_exists_None _ _ Hzip)). simpl.
    unfold bind, logging_info, urlretrieve. simpl. by rewrite Hnet.
  - intros Hzip Hnet. unfold __download. fold zip.
    rewrite (bind_Ok _ _ _ _ _ (path_exists_None _ _ Hzip)). simpl.
    unfold bind, logging_info, urlretrieve. simpl. by rewrite Hnet.
Qed.

(** ** The country catalogue *)

Lemma load_countries_app (pre post : list row) acc :
  load_countries (pre ++ post) acc
  = (m <~ load_countries pre acc ;; load_countries post m).
Proof.
  revert acc. induction pre as [|r pre IH]; intros acc; [done|].
  destruct r as [|code [|name [|? ?]]]; try done. simpl. apply IH.
Qed.

Lemma load_countries_malformed (rows : list row) acc :
  Exists (λ r, length r ≠ 2) rows → load_countries rows acc = Raise ValueError.
Proof.
  intros Hex. revert acc. induction Hex as [r rows Hr|r rows _ IH]; intros acc.
  - by destruct r as [|code [|name [|? ?]]].
  - destruct r as [|code [|name [|? ?]]]; try done. simpl. apply IH.
Qed.

Lemma load_countries_other (rows : list row) acc m code :
  load_countries rows acc = Ok m →
  Forall (λ r, r !! 0 ≠ Some code) rows → m !! code = acc !! code.
Proof.
  intros Hload Hrows. revert acc Hload.
  induction Hrows as [|r rows Hr _ IH]; intros acc; simpl.
  - by intros [= <-].
  - destruct r as [|c [|name [|? ?]]]; try done. intros Hload.
    rewrite (IH _ Hload). apply lookup_insert_ne. intros ->. by apply Hr.
Qed.

Lemma load_countries_dom (rows : list row) acc :
  Forall (λ r, length r = 2) rows →
  ∃ m, load_countries rows acc = Ok m ∧
       ∀ code, is_Some (m !! code)
               ↔ is_Some (acc !! code) ∨ ∃ name, [code; name] ∈ rows.
Proof.
  intros Hrows. revert acc.
  induction Hrows as [|r rows Hr _ IH]; intros acc.
  - exists acc. split; [done|]. intros code. split; [by left|].
    intros [?|[name Hin]]; [done|]. by apply elem_of_nil in Hin.
  - destruct r as [|c [|name [|? ?]]]; try done. simpl.
    destruct (IH (<[c:=name]> acc)) as (m & -> & Hdom). exists m.
    split; [done|]. intros code. rewrite Hdom. split.
    + intros [Hacc|[n Hin]].
      * destruct (decide (c = code)) as [->|Hne].
        -- right. exists name. by left.
        -- left. by rewrite lookup_insert_ne in Hacc.
      * right. exists n. by right.
    + intros [Hacc|[n Hin]].
      * left. destruct (decide (c = code)) as [->|Hne].
        -- rewrite lookup_insert_eq. eauto.
        -- by rewrite lookup_insert_ne.
      * apply elem_of_cons in Hin as [[= -> ->]|Hin].
        -- left. rewrite lookup_insert_eq. eauto.
        -- right. by exists n.
Qed.

(** X11: when the country file names a code more than once, the last row
    with that code gives its name. *)
Theorem last_country_row_wins `{Env} (p : string) (w w' : world)
    (pre post : list row) (code name : string) (m : gmap string string) :
  fs w !! p = Some (Text (pre ++ [code; name] :: post)) →
  Forall (λ r, r !! 0 ≠ Some code) post →
  __load_countries p w = (Ok m, w') →
  m !! code = Some name.
Proof.
  intros Hp Hpost. unfold __load_countries, bind, csv_reader, lift.
  rewrite Hp. intros [= Hload _]. rewrite load_countries_app in Hload.
  destruct (load_countries pre ∅) as [m0|]; [|done]. simpl in Hload.
  rewrite (load_countries_other _ _ _ _ Hload Hpost).
  apply lookup_insert_eq.
Qed.

Lemma last_country_row_wins_witness :
  ({[ "RU" := "Russian Federation"; "IL" := "Israel" ]} : gmap string string)
    !! "RU" = Some "Russian Federation".
Proof.
  apply (@last_country_row_wins posix "/srv/geo/countries.csv" renamed_world
           renamed_world [["RU"; "Russia"]; ["IL"; "Israel"]] []
           "RU" "Russian Federation").
  - reflexivity.
  - constructor.
  - vm_compute. reflexivity.
Defined.

(** X12: [__load_countries] reads and changes nothing else: a missing
    file is a [FileNotFoundError], a row without exactly two fields a
    [ValueError], and otherwise the catalogue knows exactly the codes that
    head a row. *)
Theorem load_countries_outcomes `{Env} (p : string) (w : world) :
  (fs w !! p = None → __load_countries p w = (Raise FileNotFoundError, w)) ∧
  (∀ rows, fs w !! p = Some (Text rows) →
     Exists (λ r, length r ≠ 2) rows →
     __load_countries p w = (Raise ValueError, w)) ∧
  (∀ rows, fs w !! p = Some (Text rows) →
     Forall (λ r, length r = 2) rows →
     ∃ m, __load_countries p w = (Ok m, w) ∧
          ∀ code, is_Some (m !! code) ↔ ∃ name, [code; name] ∈ rows).
Proof.
  unfold __load_countries, bind, csv_reader, lift. split; [|split].
  - by intros ->.
  - intros rows -> Hrows. by rewrite load_countries_malformed.
  - intros rows -> Hrows.
    destruct (load_countries_dom rows ∅ Hrows) as (m & -> & Hdom).
    exists m. split; [done|]. intros code. rewrite Hdom.
    split; [|by right]. intros [[? Hempty]|?]; [|done].
    by rewrite lookup_empty in Hempty.
Qed.

(** ** More on queries *)

Section MoreQueries.
Context `{Env}.

Lemma tree_query_Ok_inv data coordinates indices :
  tree_query data coordinates = Ok indices →
  ∃ points, mapM as_point coordinates = Some points ∧
            indices = kd_nearest data <$> points.
Proof.
  unfold tree_query. destruct coordinates as [|c cs]; [done|].
  destruct (mapM as_point (c :: cs)) as [points|]; [|done].
  intros [= <-]. by exists points.
Qed.

Lemma resolved_twice gd rs : resolved (resolved gd rs) rs = resolved gd rs.
Proof.
  assert (locations (resolved (resolved gd rs) rs) = locations (resolved gd rs))
    as Hlocs.
  { apply list_eq. intros j. rewrite !resolved_lookup. simpl.
    destruct (locations gd !! j) as [l|]; [|done]. simpl.
    by destruct (decide (j ∈ rs)). }
  unfold resolved in *. simpl in *. by rewrite Hlocs.
Qed.

Lemma search_Ok_inv w gd coordinates results w' :
  instances w = Some gd → search coordinates w = (Ok results, w') →
  tree_query (tree gd) coordinates = Ok results ∧
  Forall (λ i, i < length (locations gd)) results ∧
  w' = with_instance w (resolved gd results).
Proof.
  intros Hw. rewrite (search_built _ _ _ Hw).
  destruct (query_cases gd coordinates w)
    as [[_ ->]|[(ix & _ & _ & ->)|(ix & Hq & Hall & ->)]]; try done.
  by intros [= <-].
Qed.

Lemma as_point_None (c : list pyval) :
  length c ≠ 2 ∨ (∃ v, v ∈ c ∧ to_float v = None) → as_point c = None.
Proof.
  intros [Hlen|(v & Hv & Hnone)].
  - by destruct c as [|a [|b [|? ?]]].
  - destruct c as [|a [|b [|? ?]]]; try done. simpl.
    apply elem_of_cons in Hv as [->|Hv]; [by rewrite Hnone|].
    apply list_elem_of_singleton in Hv as ->.
    rewrite Hnone. by destruct (to_float a).
Qed.

End MoreQueries.

(** X13: asking again changes nothing: a search that returned returns
    the same references when repeated, and leaves the world as the first
    call left it. *)
Theorem repeated_search_is_stable `{Env} (w w' : world) (gd : GeocodeData)
    (coordinates : list (list pyval)) (results : list nat) :
  instances w = Some gd →
  search coordinates w = (Ok results, w') →
  search coordinates w' = (Ok results, w').
Proof.
  intros Hw Hs. destruct (search_Ok_inv _ _ _ _ _ Hw Hs) as (Hq & Hall & ->).
  rewrite (search_built _ (resolved gd results)) by done.
  destruct (query_cases (resolved gd results) coordinates
              (with_instance w (resolved gd results)))
    as [[Hq' _]|[(ix & Hq' & Hbad & _)|(ix & Hq' & _ & ->)]];
    simpl in Hq'; rewrite Hq in Hq'; try done.
  - injection Hq' as <-. destruct Hbad. by rewrite resolved_length.
  - injection Hq' as <-. by rewrite resolved_twice.
Qed.

Lemma repeated_search_is_stable_witness :
  @search posix sample_query (@search posix sample_query built_world).2
  = (Ok [0; 1], (@search posix sample_query built_world).2).
Proof.
  apply (@repeated_search_is_stable posix built_world _ sample_service).
  - vm_compute. reflexivity.
  - vm_compute. reflexivity.
Defined.

(** X14: whatever the tree answers, a search that returns hands out one
    reference per coordinate, each to a stored record that now carries its
    country, and the records it did not hand out are as they were. *)
Theorem results_are_resolved_records `{Env} (w w' : world) (gd : GeocodeData)
    (coordinates : list (list pyval)) (results : list nat) :
  instances w = Some gd →
  search coordinates w = (Ok results, w') →
  length results = length coordinates ∧
  (∀ r, r ∈ results →
     ∃ l, locations gd !! r = Some l ∧
          deref w' r = Some (set_country (countries gd) l)) ∧
  (∀ j, j ∉ results → deref w' j = locations gd !! j).
Proof.
  intros Hw Hs. destruct (search_Ok_inv _ _ _ _ _ Hw Hs) as (Hq & Hall & ->).
  split; [|split].
  - apply tree_query_Ok_inv in Hq as (points & Hpts & ->).
    rewrite length_fmap. symmetry. by eapply length_mapM.
  - intros r Hr. rewrite Forall_forall in Hall.
    destruct (lookup_lt_is_Some_2 _ _ (Hall r Hr)) as [l Hl]. exists l.
    split; [done|].
    by rewrite deref_with_instance, resolved_lookup, Hl, decide_True.
  - intros j Hj. rewrite deref_with_instance, resolved_lookup.
    rewrite decide_False by done. by destruct (locations gd !! j).
Qed.

Lemma results_are_resolved_records_witness :
  length [0; 1] = length sample_query ∧
  (∀ r, r ∈ [0; 1] →
     ∃ l, locations sample_service !! r = Some l ∧
          deref (@search posix sample_query built_world).2 r
          = Some (set_country (countries sample_service) l)) ∧
  (∀ j, j ∉ [0; 1] →
     deref (@search posix sample_query built_world).2 j
     = locations sample_service !! j).
Proof.
  apply (@results_are_resolved_records posix built_world).
  - vm_compute. reflexivity.
  - vm_compute. reflexivity.
Defined.

(** X15: one coordinate that is not a pair, or holds a value that does
    not convert to a float, fails the whole batch: the search raises
    [ValueError], logs the batch, returns nothing for the well-formed
    coordinates and resolves no record. *)
Theorem one_malformed_coordinate_fails_the_batch `{Env} (w : world)
    (gd : GeocodeData) (coordinates : list (list pyval)) (c : list pyval) :
  instances w = Some gd →
  c ∈ coordinates →
  length c ≠ 2 ∨ (∃ v, v ∈ c ∧ to_float v = None) →
  search coordinates w = (Raise ValueError, with_log w (UnableToParse coordinates)).
Proof.
  intros Hw Hin Hbad. rewrite (search_built _ _ _ Hw).
  assert (tree_query (tree gd) coordinates = Raise ValueError) as Hq.
  { unfold tree_query. destruct coordinates as [|c0 cs]; [done|].
    destruct (mapM as_point (c0 :: cs)) as [points|] eqn:Hm; [|done].
    apply mapM_Some_1 in Hm.
    destruct (proj1 (list_elem_of_lookup _ _) Hin) as [i Hi].
    destruct (Forall2_lookup_l _ _ _ _ _ Hm Hi) as (x & _ & Hx).
    by rewrite (as_point_None _ Hbad) in Hx. }
  destruct (query_cases gd coordinates w)
    as [[_ ->]|[(ix & Hq' & _)|(ix & Hq' & _)]]; [done|congruence..].
Qed.

Lemma one_malformed_coordinate_fails_the_batch_witness :
  @search posix [[PyFloat 55.68; PyFloat 37.53]; [PyFloat 31.76]] built_world
  = (Raise ValueError,
     with_log built_world
       (UnableToParse [[PyFloat 55.68; PyFloat 37.53]; [PyFloat 31.76]])).
Proof.
  apply (@one_malformed_coordinate_fails_the_batch posix built_world
           sample_service _ [PyFloat 31.76]).
  - vm_compute. reflexivity.
  - right. left.
  - left. discriminate.
Defined.

(** X16: when the service is, or can be, constructed, [get] of a
    well-formed coordinate returns a reference to the stored record at the
    index the tree answers, read with its country resolved, and never fails
    on the [[0]]; when the tree answers no stored record, [get] raises
    [IndexError] and resolves nothing. *)
Theorem get_returns_the_indexed_record `{Env} (w w0 : world) (gd : GeocodeData)
    (coordinate : list pyval) (x : Q * Q) :
  getinstance w = (Ok gd, w0) →
  as_point coordinate = Some x →
  (∀ l, locations gd !! kd_nearest (tree gd) x = Some l →
     ∃ w', get coordinate w = (Ok (kd_nearest (tree gd) x), w') ∧
           deref w' (kd_nearest (tree gd) x)
           = Some (set_country (countries gd) l)) ∧
  (locations gd !! kd_nearest (tree gd) x = None →
   get coordinate w = (Raise IndexError, w0)).
Proof.
  intros Hget Hx. unfold get. rewrite (bind_Ok _ _ _ _ _ Hget).
  assert (tree_query (tree gd) [coordinate] = Ok [kd_nearest (tree gd) x])
    as Hq by (unfold tree_query; simpl; by rewrite Hx).
  split.
  - intros l Hl.
    exists (with_instance w0 (resolved gd [kd_nearest (tree gd) x])). split.
    + destruct (query_cases gd [coordinate] w0)
        as [[Hq' _]|[(ix & Hq' & Hbad & _)|(ix & Hq' & _ & Hrun)]];
        rewrite Hq in Hq'; try done; injection Hq' as <-.
      * destruct Hbad. repeat constructor. by eapply lookup_lt_Some.
      * by rewrite (bind_Ok _ _ _ _ _ Hrun).
    + rewrite deref_with_instance, resolved_lookup, Hl.
      by rewrite decide_True by left.
  - intros Hnone.
    destruct (query_cases gd [coordinate] w0)
      as [[Hq' _]|[(ix & Hq' & _ & Hrun)|(ix & Hq' & Hall & _)]];
      rewrite Hq in Hq'; try done; injection Hq' as <-.
    + by rewrite (bind_Raise _ _ _ _ _ Hrun).
    + apply Forall_cons_1 in Hall as [Hlt _].
      apply lookup_lt_is_Some_2 in Hlt as [l Hl]. congruence.
Qed.

Lemma get_returns_the_indexed_record_witness :
  (∀ l, locations sample_service
          !! @kd_nearest posix (tree sample_service) (55.68, 37.53)%Q = Some l →
     ∃ w', @get posix [PyFloat 55.68; PyStr "37.53"] fresh_world
           = (Ok (@kd_nearest posix (tree sample_service) (55.68, 37.53)%Q), w') ∧
           deref w' (@kd_nearest posix (tree sample_service) (55.68, 37.53)%Q)
           = Some (set_country (countries sample_service) l)) ∧
  (locations sample_service
     !! @kd_nearest posix (tree sample_service) (55.68, 37.53)%Q = None →
   @get posix [PyFloat 55.68; PyStr "37.53"] fresh_world
   = (Raise IndexError, built_world)).
Proof.
  apply (@get_returns_the_indexed_record posix fresh_world built_world
           sample_service [PyFloat 55.68; PyStr "37.53"]).
  - vm_compute. reflexivity.
  - reflexivity.
Defined.

(** ** Ingestion and construction together *)

Lemma load_rows_Ok_inv (rows : list row) out :
  load_rows rows = Ok out →
  Forall (λ r, length r = 4) rows ∧
  out = (coordinate_of <$> rows, record_of <$> rows).
Proof.
  intros Hload.
  destruct (Forall_Exists_dec (λ r, length r = 4) (λ r, length r ≠ 4)
              (λ r, decide (length r = 4)) rows) as [Hall|Hex].
  - split; [done|]. rewrite (load_rows_verbatim _ Hall) in Hload. congruence.
  - by rewrite (load_rows_malformed _ Hex) in Hload.
Qed.

Section Alignment.
Context `{Env}.

Lemma extract_Ok_file p w out w1 :
  p ≠ GEOCODE_FILENAME → p ≠ abspath (basename GEOCODE_URL) →
  __extract p w = (Ok out, w1) →
  ∃ rows, fs w1 !! p = Some (Text rows) ∧ load_rows rows = Ok out.
Proof.
  intros Hdump Hzip Hrun. destruct (fs w !! p) as [[rows|z]|] eqn:Hp.
  - rewrite (extract_cached _ _ _ Hp) in Hrun. injection Hrun as Hload <-.
    by exists rows.
  - unfold __extract in Hrun.
    rewrite (bind_Ok _ _ w true w) in Hrun by (apply path_exists_Some; eauto).
    apply bind_Ok_inv in Hrun as (rows & wa & Hread & _).
    unfold csv_reader in Hread. by rewrite Hp in Hread.
  - destruct (extract_first_run _ _ _ _ Hdump Hzip Hp Hrun)
      as (_ & dump & Hfile & Hload). by exists (omap retained dump).
Qed.

End Alignment.

(** X17: a dump row that raises makes the run that unpacked the dump
    raise that exception and clean nothing up: the dump, the archive and the
    compact file the run opened all stay.  The next run therefore takes the
    cached branch: it builds its output from whatever the compact file
    holds, and does not go back to the dump. *)
Theorem failed_run_keeps_its_files `{Env} (p : string) (w : world)
    (z : gmap string (list row)) (pre : list row) (r : row) (post : list row)
    (e : exn) :
  p ≠ GEOCODE_FILENAME → p ≠ abspath (basename GEOCODE_URL) →
  abspath (basename GEOCODE_URL) ≠ GEOCODE_FILENAME →
  fs w !! p = None → fs w !! GEOCODE_FILENAME = None →
  fs w !! abspath (basename GEOCODE_URL) = Some (Archive z) →
  z !! GEOCODE_FILENAME = Some (pre ++ r :: post)%list →
  Forall row_ok pre → extract_row r = Raise e →
  ∃ w', __extract p w = (Raise e, w') ∧
        fs w' !! GEOCODE_FILENAME = Some (Text (pre ++ r :: post)) ∧
        fs w' !! abspath (basename GEOCODE_URL) = Some (Archive z) ∧
        ∃ cached, fs w' !! p = Some (Text cached) ∧
                  __extract p w' = (load_rows cached, w').
Proof.
  set (zip := abspath (basename GEOCODE_URL)).
  intros Hdump Hzip Hzd Hp Hnodump Harch Hentry Hpre Hr.
  set (w1 := World (fs w) (net w) (log w ++ [Extracting GEOCODE_FILENAME])%list
                   (instances w)).
  set (w2 := World (<[p:=Text []]>
                      (<[GEOCODE_FILENAME:=Text (pre ++ r :: post)%list]>
                         (<[GEOCODE_FILENAME:=Text []]> (fs w))))
                   (net w) (log w ++ [Extracting GEOCODE_FILENAME])%list
                   (instances w)).
  destruct (extract_rows_raise p pre r post [] w2 e [] Hpre Hr)
    as (w' & Hloop & Hfile); [apply lookup_insert_eq|].
  destruct (extract_rows_world _ _ _ _ _ _ Hloop) as (_ & _ & _ & Hother & _).
  exists w'. split; [|split; [|split]].
  - unfold __extract.
    rewrite (bind_Ok _ _ _ _ _ (path_exists_None _ _ Hp)).
    apply bind_Raise.
    rewrite (bind_Ok _ _ _ _ _ (path_exists_None _ _ Hnodump)). simpl.
    rewrite (bind_Ok _ _ w (Some zip) (World
               (<[GEOCODE_FILENAME:=Text (pre ++ r :: post)%list]>
                  (<[GEOCODE_FILENAME:=Text []]> (fs w)))
               (net w) (log w ++ [Extracting GEOCODE_FILENAME])%list (instances w))).
    2:{ unfold __download. fold zip.
        rewrite (bind_Ok _ _ w zip w).
        2:{ rewrite (bind_Ok _ _ w true w) by (apply path_exists_Some; eauto).
            simpl. by rewrite (bind_Ok _ _ w tt w). }
        rewrite (bind_Ok _ _ w tt w1) by done.
        rewrite (bind_Ok _ _ w1 z w1) by (unfold ZipFile; simpl; by rewrite Harch).
        rewrite (bind_Ok _ _ w1 tt
                   (World (<[GEOCODE_FILENAME:=Text []]> (fs w)) (net w)
                          (log w ++ [Extracting GEOCODE_FILENAME])%list (instances w)))
          by done.
        rewrite Hentry. by erewrite bind_Ok. }
    rewrite (bind_Ok _ _ _ tt w2) by done.
    rewrite (bind_Ok _ _ w2 (pre ++ r :: post)%list w2).
    2:{ unfold csv_reader. subst w2. simpl.
        by rewrite lookup_insert_ne, lookup_insert_eq. }
    by rewrite (bind_Raise _ _ _ _ _ Hloop).
  - rewrite Hother by done. subst w2. simpl.
    by rewrite lookup_insert_ne, lookup_insert_eq.
  - rewrite Hother by done. subst w2. simpl.
    by rewrite !lookup_insert_ne, Harch.
  - eexists. split; [exact Hfile|]. by rewrite (extract_cached _ _ _ Hfile).
Qed.

Lemma failed_run_keeps_its_files_witness :
  ∃ w', @__extract posix "/srv/geo/geocode.csv" bad_archive_world
        = (Raise ValueError, w') ∧
        fs w' !! GEOCODE_FILENAME
        = Some (Text (take 3 sample_dump ++ ["7"; "Nowhere"]
                      :: drop 3 sample_dump)) ∧
        fs w' !! @abspath posix (basename GEOCODE_URL)
        = Some (Archive
                  {[ GEOCODE_FILENAME
                     := (take 3 sample_dump ++ ["7"; "Nowhere"]
                         :: drop 3 sample_dump)%list ]}) ∧
        ∃ cached, fs w' !! "/srv/geo/geocode.csv" = Some (Text cached) ∧
                  @__extract posix "/srv/geo/geocode.csv" w'
                  = (load_rows cached, w').
Proof.
  apply (@failed_run_keeps_its_files posix "/srv/geo/geocode.csv"
           bad_archive_world
           {[ GEOCODE_FILENAME
              := (take 3 sample_dump ++ ["7"; "Nowhere"] :: drop 3 sample_dump)%list ]}
           (take 3 sample_dump) ["7"; "Nowhere"] (drop 3 sample_dump)).
  - discriminate.
  - discriminate.
  - discriminate.
  - reflexivity.
  - reflexivity.
  - reflexivity.
  - reflexivity.
  - repeat constructor; eexists; reflexivity.
  - reflexivity.
Defined.

(** X18: a service that [__init__] returns is the compact file, row for
    row: record [i] holds the country code and city of row [i] and no
    country yet, point [i] of the tree is the floats of its latitude and
    longitude, and the catalogue is the one loaded from the country file. *)
Theorem constructed_service_matches_cache `{Env} (w w' : world)
    (gd : GeocodeData) :
  rel_path "geocode.csv" ≠ GEOCODE_FILENAME →
  rel_path "geocode.csv" ≠ abspath (basename GEOCODE_URL) →
  __init__ w = (Ok gd, w') →
  ∃ rows crows,
    fs w' !! rel_path "geocode.csv" = Some (Text rows) ∧
    fs w' !! rel_path "countries.csv" = Some (Text crows) ∧
    locations gd = record_of <$> rows ∧
    Forall2 (λ r pt, ∃ x y, float_of_str (r !!! 0) = Some x ∧
                            float_of_str (r !!! 1) = Some y ∧ pt = (x, y))
            rows (tree gd) ∧
    load_countries crows ∅ = Ok (countries gd).
Proof.
  intros Hdump Hzip Hrun. unfold __init__ in Hrun.
  apply bind_Ok_inv in Hrun as (out & wa & Hout & Hrun).
  apply bind_Ok_inv in Hrun as (t & wb & [= Ht <-] & Hrun).
  apply bind_Ok_inv in Hrun as (c & wc & Hc & [= <- <-]).
  destruct (extract_Ok_file _ _ _ _ Hdump Hzip Hout) as (rows & Hfile & Hload).
  apply load_rows_Ok_inv in Hload as [Hrows ->].
  unfold __load_countries in Hc.
  apply bind_Ok_inv in Hc as (crows & wd & Hread & [= Hcs <-]).
  unfold csv_reader in Hread.
  destruct (fs wa !! rel_path "countries.csv") as [[crows'|?]|] eqn:Hcf;
    try done.
  injection Hread as -> <-. exists rows, crows.
  repeat split; try done. simpl in *.
  unfold KDTree in Ht. destruct (coordinate_of <$> rows) eqn:Hcoords; [done|].
  rewrite <- Hcoords in Ht.
  destruct (mapM _ _) as [data|] eqn:Hm; [|done]. injection Ht as <-.
  apply mapM_Some_1, Forall2_fmap_l in Hm.
  eapply Forall2_impl; [exact Hm|]. intros r pt. simpl.
  destruct (float_of_str (r !!! 0)) as [x|]; [|done]. simpl.
  destruct (float_of_str (r !!! 1)) as [y|]; [|done]. simpl.
  intros [= <-]. by exists x, y.
Qed.

Lemma constructed_service_matches_cache_witness :
  ∃ rows crows,
    fs (@__init__ posix fresh_world).2 !! @rel_path posix "geocode.csv"
    = Some (Text rows) ∧
    fs (@__init__ posix fresh_world).2 !! @rel_path posix "countries.csv"
    = Some (Text crows) ∧
    locations sample_service = record_of <$> rows ∧
    Forall2 (λ r pt, ∃ x y, @float_of_str posix (r !!! 0) = Some x ∧
                            @float_of_str posix (r !!! 1) = Some y ∧ pt = (x, y))
            rows (tree sample_service) ∧
    load_countries crows ∅ = Ok (countries sample_service).
Proof.
  apply (@constructed_service_matches_cache posix fresh_world
           (@__init__ posix fresh_world).2 sample_service).
  - discriminate.
  - discriminate.
  - vm_compute. reflexivity.
Defined.
